(** * ng-image-canvas: the canvas component and its pointer state machine

    A shallow embedding of [CanvasComponent]
    (src/lib/ng-image-canvas.component.ts) and of the [DraggableImage]
    interface (src/lib/utils/draggable-image.ts), followed by the
    properties of the drop, drag, resize and delete gestures.

    Number model.  A JavaScript [number] is modelled by a rational [Q] with
    exact arithmetic: [+], [-], [*], [Math.max], [Math.min], [<=] and [>=]
    are the operations of [Q].  [a / b] is [Qdiv], which agrees with the
    source whenever [b] is not zero (the source yields an infinity or NaN
    there, [Qdiv] yields 0); every statement below that depends on the value
    of a quotient assumes its divisor is not zero.  Equality of computed
    numbers is [==] ([Qeq]).  The source rounds every operation to a
    double; bounds obtained through [Math.max] and [Math.min] and
    equalities with the source's own expression are not affected, and an
    equality that needs exact arithmetic says so. *)

From Stdlib Require Import String ZArith QArith Qminmax Lqa.
From stdpp Require Import base option list.

Local Open Scope Q_scope.

(** ** Data model *)

(** [HTMLImageElement]: only the decoded dimensions are read by the
    component ([img.width], [img.height]); [src] identifies the bitmap. *)
Module HTMLImageElement.
Record t : Type := mk { src : string; width : Q; height : Q }.
End HTMLImageElement.

(** [DraggableImage]: the three optional members are [None] when
    [undefined]. *)
Module DraggableImage.
Record t : Type := mk {
  img : HTMLImageElement.t;
  x : Q;
  y : Q;
  width : Q;
  height : Q;
  isResizing : option bool;
  initialWidth : option Q;
  initialHeight : option Q
}.

Definition set_x (v : Q) (i : t) : t :=
  mk (img i) v (y i) (width i) (height i)
     (isResizing i) (initialWidth i) (initialHeight i).
Definition set_y (v : Q) (i : t) : t :=
  mk (img i) (x i) v (width i) (height i)
     (isResizing i) (initialWidth i) (initialHeight i).
Definition set_width (v : Q) (i : t) : t :=
  mk (img i) (x i) (y i) v (height i)
     (isResizing i) (initialWidth i) (initialHeight i).
Definition set_height (v : Q) (i : t) : t :=
  mk (img i) (x i) (y i) (width i) v
     (isResizing i) (initialWidth i) (initialHeight i).
Definition set_isResizing (v : bool) (i : t) : t :=
  mk (img i) (x i) (y i) (width i) (height i)
     (Some v) (initialWidth i) (initialHeight i).
Definition set_initialWidth (v : Q) (i : t) : t :=
  mk (img i) (x i) (y i) (width i) (height i)
     (isResizing i) (Some v) (initialHeight i).
Definition set_initialHeight (v : Q) (i : t) : t :=
  mk (img i) (x i) (y i) (width i) (height i)
     (isResizing i) (initialWidth i) (Some v).
End DraggableImage.

(** ** Events delivered by the host *)

Module MouseEvent.
Record t : Type := mk { offsetX : Q; offsetY : Q }.
End MouseEvent.

Module KeyboardEvent.
Record t : Type := mk { key : string }.
End KeyboardEvent.

Module File.
Record t : Type := mk { name : string }.
End File.

Module DataTransfer.
Record t : Type := mk { files : list File.t }.
End DataTransfer.

(** [event.dataTransfer] is [None] when it is [null]. *)
Module DragEvent.
Record t : Type := mk { dataTransfer : option DataTransfer.t }.
End DragEvent.

(** The keys present in the [SimpleChanges] object of [ngOnChanges]. *)
Definition SimpleChanges : Type := list string.

(** ** The 2D context

    The surface is recorded as the sequence of calls made on
    [CanvasRenderingContext2D]. *)
Inductive ctx_call : Type :=
  | clearRect (x y w h : Q)
  | drawImage (img : HTMLImageElement.t) (x y w h : Q)
  | fillStyle (s : string)
  | fillRect (x y w h : Q)
  | font (s : string)
  | fillText (s : string) (x y : Q).

(** ** Array helpers *)

(** [Array.prototype.findIndex] for a predicate without side effects:
    the first index whose element satisfies [p], or [-1]. *)
Fixpoint findIndex_from {A : Type} (p : A -> bool) (l : list A) (i : Z) : Z :=
  match l with
  | [] => (-1)%Z
  | a :: r => if p a then i else findIndex_from p r (i + 1)%Z
  end.

Definition findIndex {A : Type} (p : A -> bool) (l : list A) : Z :=
  findIndex_from p l 0%Z.

(** [arr[i]] for an integer [i]: [None] is [undefined] (a negative index,
    such as the [-1] of [findIndex], or one past the end). *)
Definition at_index {A : Type} (l : list A) (i : Z) : option A :=
  if (i <? 0)%Z then None else l !! Z.to_nat i.

(** [arr.splice(i, 1)] for [0 <= i]. *)
Definition splice1 {A : Type} (l : list A) (i : Z) : list A :=
  delete (Z.to_nat i) l.

(** [o || 0] on an optional number: [undefined] and [0] both give [0]. *)
Definition or0 (o : option Q) : Q :=
  match o with Some q => q | None => 0 end.

(** [o!] read as a number.  The source yields NaN for [undefined]; the
    handlers always define [initialWidth] and [initialHeight] together with
    [isResizing = true], and the statements about the aspect ratio assume
    both are defined. *)
Definition nonNull (o : option Q) : Q :=
  match o with Some q => q | None => 0 end.

(** Truthiness of an optional boolean. *)
Definition truthy (o : option bool) : bool :=
  match o with Some true => true | _ => false end.

(** ** The component *)

Module CanvasComponent.

(** The [@Input()] members. *)
Record Inputs : Type := mkInputs {
  width : Q;
  height : Q;
  editing : bool;
  resizeHandleSize : Q;
  resizeHandleColor : string;
  closeButtonSize : Q;
  closeButtonBackgroundColor : string;
  closeButtonFontColor : string
}.

(** The instance.  [imagesChange] records, in order, the values emitted on
    the [@Output()], each as the registry was when it was emitted; [ctx] is
    [None] until [ngOnInit] obtains the 2D context; [selectedImageIndex] is
    [None] when [null]. *)
Record t : Type := mk {
  inputs : Inputs;
  imagesChange : list (list DraggableImage.t);
  ctx : option (list ctx_call);
  images : list DraggableImage.t;
  selectedImageIndex : option Z;
  offsetX : Q;
  offsetY : Q;
  isDragging : bool;
  isShiftPressed : bool
}.

Definition set_inputs (v : Inputs) (c : t) : t :=
  mk v (imagesChange c) (ctx c) (images c) (selectedImageIndex c)
     (offsetX c) (offsetY c) (isDragging c) (isShiftPressed c).
Definition set_imagesChange (v : list (list DraggableImage.t)) (c : t) : t :=
  mk (inputs c) v (ctx c) (images c) (selectedImageIndex c)
     (offsetX c) (offsetY c) (isDragging c) (isShiftPressed c).
Definition set_ctx (v : option (list ctx_call)) (c : t) : t :=
  mk (inputs c) (imagesChange c) v (images c) (selectedImageIndex c)
     (offsetX c) (offsetY c) (isDragging c) (isShiftPressed c).
Definition set_images (v : list DraggableImage.t) (c : t) : t :=
  mk (inputs c) (imagesChange c) (ctx c) v (selectedImageIndex c)
     (offsetX c) (offsetY c) (isDragging c) (isShiftPressed c).
Definition set_selectedImageIndex (v : option Z) (c : t) : t :=
  mk (inputs c) (imagesChange c) (ctx c) (images c) v
     (offsetX c) (offsetY c) (isDragging c) (isShiftPressed c).
Definition set_offsetX (v : Q) (c : t) : t :=
  mk (inputs c) (imagesChange c) (ctx c) (images c) (selectedImageIndex c)
     v (offsetY c) (isDragging c) (isShiftPressed c).
Definition set_offsetY (v : Q) (c : t) : t :=
  mk (inputs c) (imagesChange c) (ctx c) (images c) (selectedImageIndex c)
     (offsetX c) v (isDragging c) (isShiftPressed c).
Definition set_isDragging (v : bool) (c : t) : t :=
  mk (inputs c) (imagesChange c) (ctx c) (images c) (selectedImageIndex c)
     (offsetX c) (offsetY c) v (isShiftPressed c).
Definition set_isShiftPressed (v : bool) (c : t) : t :=
  mk (inputs c) (imagesChange c) (ctx c) (images c) (selectedImageIndex c)
     (offsetX c) (offsetY c) (isDragging c) v.

(** How a handler ends: normally, or by an uncaught [TypeError]; either
    way with the instance as the handler left it. *)
Inductive completion : Type :=
  | Normal (c : t)
  | TypeError (c : t).

Definition state_of (r : completion) : t :=
  match r with Normal c => c | TypeError c => c end.

(** A freshly constructed instance (the field initialisers). *)
Definition new : t :=
  mk (mkInputs 800 600 true 10 "gray" 20 "red" "white")
     [] None [] None 0 0 false false.

(** *** Rendering *)

Definition drawResizeHandles (this : t) (image : DraggableImage.t)
  : list ctx_call :=
  let s := resizeHandleSize (inputs this) in
  [ fillStyle (resizeHandleColor (inputs this));
    fillRect (DraggableImage.x image + DraggableImage.width image - s)
             (DraggableImage.y image + DraggableImage.height image - s)
             s s ].

Definition drawCloseButton (this : t) (image : DraggableImage.t)
  : list ctx_call :=
  let s := closeButtonSize (inputs this) in
  [ fillStyle (closeButtonBackgroundColor (inputs this));
    fillRect (DraggableImage.x image + DraggableImage.width image - s)
             (DraggableImage.y image) s s;
    fillStyle (closeButtonFontColor (inputs this));
    font "16px Arial";
    fillText "x"
      (DraggableImage.x image + DraggableImage.width image - s / 2 - 4)
      (DraggableImage.y image + s / 2 + 5) ].

(** The calls of one [drawImages] pass. *)
Definition frame (this : t) : list ctx_call :=
  clearRect 0 0 (width (inputs this)) (height (inputs this))
  :: flat_map
       (fun d =>
          drawImage (DraggableImage.img d)
                    (DraggableImage.x d) (DraggableImage.y d)
                    (DraggableImage.width d) (DraggableImage.height d)
          :: (if editing (inputs this)
              then drawResizeHandles this d ++ drawCloseButton this d
              else []))
       (images this).

Definition drawImages (this : t) : t :=
  match ctx this with
  | None => this
  | Some calls => set_ctx (Some (calls ++ frame this)) this
  end.

Definition emitImagesChange (this : t) : t :=
  set_imagesChange (imagesChange this ++ [images this]) this.

(** *** Lifecycle *)

Definition ngOnInit (this : t) : t :=
  drawImages (set_ctx (Some (default [] (ctx this))) this).

Definition resetInteractions (this : t) : t :=
  set_images (map (DraggableImage.set_isResizing false) (images this))
    (set_isDragging false (set_selectedImageIndex None this)).

Definition has_key (k : string) (changes : SimpleChanges) : bool :=
  existsb (String.eqb k) changes.

Definition ngOnChanges (changes : SimpleChanges) (this : t) : t :=
  if has_key "editing" changes
  then drawImages (resetInteractions this)
  else this.

(** *** Drop *)

(** The placed image built by [img.onload]. *)
Definition draggableImage_of (this : t) (img : HTMLImageElement.t)
  : DraggableImage.t :=
  DraggableImage.mk img 0 0
    (if Qle_bool (HTMLImageElement.width img) (width (inputs this))
     then HTMLImageElement.width img else 100)
    (if Qle_bool (HTMLImageElement.height img) (height (inputs this))
     then HTMLImageElement.height img
     else HTMLImageElement.height img / HTMLImageElement.width img * 100)
    None None None.

(** [img.onload] of [onDrop]: runs when the decode of the dropped file has
    produced [img], on the instance as it is at that time. *)
Definition onDrop_img_onload (img : HTMLImageElement.t) (this : t) : t :=
  let draggableImage := draggableImage_of this img in
  emitImagesChange
    (drawImages (set_images (images this ++ [draggableImage]) this)).

(** [FileReader.readAsDataURL(file)]: its parameter is a [Blob]; called
    with [undefined] it raises a [TypeError] (and starts no read),
    otherwise the read of [file] is started. *)
Definition readAsDataURL (file : option File.t) : option File.t := file.

(** [onDrop]: the completion, and the file whose read was started (whose
    decode later triggers [onDrop_img_onload]).  [event] is an object
    ([preventDefault] has already been called on it when [event == null] is
    tested), so that test never holds; [preventDefault] and
    [stopPropagation] act on the host only. *)
Definition onDrop (event : DragEvent.t) (this : t)
  : completion * option File.t :=
  if negb (editing (inputs this)) then (Normal this, None)
  else
    match DragEvent.dataTransfer event with
    | None => (Normal this, None)
    | Some dataTransfer =>
        let file := head (DataTransfer.files dataTransfer) in
        match readAsDataURL file with
        | None => (TypeError this, None)
        | Some f => (Normal this, Some f)
        end
    end.

(** *** Pointer-down *)

(** The predicate of the first [findIndex]: the close-button bounds. *)
Definition inCloseButtonBounds (this : t) (offsetX offsetY : Q)
    (img : DraggableImage.t) : bool :=
  let bx := DraggableImage.x img + DraggableImage.width img
            - closeButtonSize (inputs this) in
  let by_ := DraggableImage.y img in
  let bw := closeButtonSize (inputs this) in
  let bh := closeButtonSize (inputs this) in
  Qle_bool bx offsetX && Qle_bool offsetX (bx + bw) &&
  Qle_bool by_ offsetY && Qle_bool offsetY (by_ + bh).

Definition inImageBounds (offsetX offsetY : Q) (img : DraggableImage.t)
  : bool :=
  Qle_bool (DraggableImage.x img) offsetX &&
  Qle_bool offsetX (DraggableImage.x img + DraggableImage.width img) &&
  Qle_bool (DraggableImage.y img) offsetY &&
  Qle_bool offsetY (DraggableImage.y img + DraggableImage.height img).

Definition inResizeBounds (this : t) (offsetX offsetY : Q)
    (img : DraggableImage.t) : bool :=
  Qle_bool (DraggableImage.x img + DraggableImage.width img
            - resizeHandleSize (inputs this)) offsetX &&
  Qle_bool offsetX (DraggableImage.x img + DraggableImage.width img) &&
  Qle_bool (DraggableImage.y img + DraggableImage.height img
            - resizeHandleSize (inputs this)) offsetY &&
  Qle_bool offsetY (DraggableImage.y img + DraggableImage.height img).

(** The assignments made to [img] when the point is in its resize
    bounds. *)
Definition startResizing (img : DraggableImage.t) : DraggableImage.t :=
  DraggableImage.set_initialHeight (DraggableImage.height img)
    (DraggableImage.set_initialWidth (DraggableImage.width img)
       (DraggableImage.set_isResizing true img)).

(** The second [findIndex], whose predicate writes to the element it is
    called on: every element visited (up to and including the first one
    whose body contains the point) is marked when the point is in its
    resize bounds.  Returns the array after the pass and the index found,
    counted from [i]. *)
Fixpoint findIndex_hit (this : t) (offsetX offsetY : Q)
    (l : list DraggableImage.t) (i : Z) : list DraggableImage.t * Z :=
  match l with
  | [] => ([], (-1)%Z)
  | img :: rest =>
      let img' := if inResizeBounds this offsetX offsetY img
                  then startResizing img else img in
      if inImageBounds offsetX offsetY img then (img' :: rest, i)
      else
        let r := findIndex_hit this offsetX offsetY rest (i + 1)%Z in
        (img' :: fst r, snd r)
  end.

Definition onMouseDown (event : MouseEvent.t) (this : t) : completion :=
  if negb (editing (inputs this)) then Normal this
  else
    let offsetX := MouseEvent.offsetX event in
    let offsetY := MouseEvent.offsetY event in
    let closed :=
      findIndex (inCloseButtonBounds this offsetX offsetY) (images this) in
    if negb (closed =? -1)%Z then
      Normal
        (emitImagesChange
           (drawImages
              (set_selectedImageIndex None
                 (set_images (splice1 (images this) closed) this))))
    else
      let hit := findIndex_hit this offsetX offsetY (images this) 0%Z in
      let this1 :=
        set_selectedImageIndex (Some (snd hit))
          (set_images (fst hit) this) in
      if negb (snd hit =? -1)%Z then
        match at_index (images this1) (snd hit) with
        | None => TypeError this1
        | Some img =>
            Normal
              (set_isDragging true
                 (set_offsetY (offsetY - DraggableImage.y img)
                    (set_offsetX (offsetX - DraggableImage.x img) this1)))
        end
      else Normal this1.

(** *** Pointer-move *)

Definition resized (this : t) (offsetX offsetY : Q)
    (img : DraggableImage.t) : DraggableImage.t :=
  let aspectRatio := nonNull (DraggableImage.initialWidth img)
                     / nonNull (DraggableImage.initialHeight img) in
  if isShiftPressed this then
    let newWidth :=
      Qmax 10 (or0 (DraggableImage.initialWidth img)
               + (offsetX - DraggableImage.x img
                  - or0 (DraggableImage.initialWidth img))) in
    let newHeight := newWidth / aspectRatio in
    DraggableImage.set_height newHeight
      (DraggableImage.set_width newWidth img)
  else
    let img1 :=
      DraggableImage.set_width
        (Qmax 10 (or0 (DraggableImage.initialWidth img)
                  + (offsetX - DraggableImage.x img
                     - or0 (DraggableImage.initialWidth img)))) img in
    DraggableImage.set_height
      (Qmax 10 (or0 (DraggableImage.initialHeight img1)
                + (offsetY - DraggableImage.y img1
                   - or0 (DraggableImage.initialHeight img1)))) img1.

Definition dragged (this : t) (offsetX offsetY : Q)
    (img : DraggableImage.t) : DraggableImage.t :=
  let img1 :=
    DraggableImage.set_x
      (Qmin (Qmax 0 (offsetX - CanvasComponent.offsetX this))
            (width (inputs this) - DraggableImage.width img)) img in
  DraggableImage.set_y
    (Qmin (Qmax 0 (offsetY - CanvasComponent.offsetY this))
          (height (inputs this) - DraggableImage.height img1)) img1.

Definition onMouseMove (event : MouseEvent.t) (this : t) : completion :=
  match selectedImageIndex this with
  | None => Normal this
  | Some i =>
      let offsetX := MouseEvent.offsetX event in
      let offsetY := MouseEvent.offsetY event in
      match at_index (images this) i with
      | None => TypeError this
      | Some img =>
          let img' :=
            if truthy (DraggableImage.isResizing img)
            then resized this offsetX offsetY img
            else if isDragging this
                 then dragged this offsetX offsetY img
                 else img in
          Normal (drawImages
                    (set_images (<[Z.to_nat i := img']> (images this))
                       this))
      end
  end.

(** *** Pointer-up *)

Definition onMouseUp (this : t) : completion :=
  match selectedImageIndex this with
  | Some i =>
      match at_index (images this) i with
      | None => TypeError this
      | Some img =>
          Normal
            (set_isDragging false
               (set_selectedImageIndex None
                  (set_images
                     (<[Z.to_nat i :=
                          DraggableImage.set_isResizing false img]>
                        (images this))
                     this)))
      end
  | None => Normal (set_isDragging false (set_selectedImageIndex None this))
  end.

(** *** Keyboard, accessors *)

Definition onKeyDown (event : KeyboardEvent.t) (this : t) : t :=
  if String.eqb (KeyboardEvent.key event) "Shift"
  then set_isShiftPressed true this else this.

Definition onKeyUp (event : KeyboardEvent.t) (this : t) : t :=
  if String.eqb (KeyboardEvent.key event) "Shift"
  then set_isShiftPressed false this else this.

Definition getImages (this : t) : list DraggableImage.t := images this.

Definition setImages (images : list DraggableImage.t) (this : t) : t :=
  drawImages (set_images images this).

End CanvasComponent.

Import CanvasComponent.

(** ** Event sequences

    What the host and the framework deliver to an instance.  [ImgOnload] is
    the completion of the decode started by an earlier drop. *)
Inductive event : Type :=
  | NgOnInit
  | InputsChanged (i : Inputs) (changes : SimpleChanges)
  | Drop (e : DragEvent.t)
  | ImgOnload (img : HTMLImageElement.t)
  | MouseDown (e : MouseEvent.t)
  | MouseMove (e : MouseEvent.t)
  | MouseUp
  | KeyDown (e : KeyboardEvent.t)
  | KeyUp (e : KeyboardEvent.t)
  | SetImages (l : list DraggableImage.t).

(** The framework writes the bound inputs and then calls [ngOnChanges] with
    the keys of those that changed; a changed [editing] is among them. *)
Definition bindInputs (i : Inputs) (changes : SimpleChanges) (this : t) : t :=
  let changes' :=
    if Bool.eqb (editing (inputs this)) (editing i) then changes
    else "editing"%string :: changes in
  ngOnChanges changes' (set_inputs i this).

Definition step (e : event) (this : t) : t :=
  match e with
  | NgOnInit => ngOnInit this
  | InputsChanged i changes => bindInputs i changes this
  | Drop e => state_of (fst (onDrop e this))
  | ImgOnload img => onDrop_img_onload img this
  | MouseDown e => state_of (onMouseDown e this)
  | MouseMove e => state_of (onMouseMove e this)
  | MouseUp => state_of (onMouseUp this)
  | KeyDown e => onKeyDown e this
  | KeyUp e => onKeyUp e this
  | SetImages l => setImages l this
  end.

Definition run (es : list event) (this : t) : t :=
  fold_left (fun c e => step e c) es this.

Inductive reachable : t -> Prop :=
  | reachable_new : reachable new
  | reachable_step e this : reachable this -> reachable (step e this).

(** The number of entries marked as being resized. *)
Definition resizing_count (l : list DraggableImage.t) : nat :=
  length (filter (fun d => truthy (DraggableImage.isResizing d) = true) l).

(** ** Scenarios

    Concrete event sequences on the default 800x600 surface, used to
    exercise the handlers. *)

Definition shift : KeyboardEvent.t := KeyboardEvent.mk "Shift".

Definition one_file : DragEvent.t :=
  DragEvent.mk (Some (DataTransfer.mk [File.mk "image.png"])).

(** The surface after [ngOnInit], nothing placed yet. *)
Definition mounted : t := run [NgOnInit] new.

(** The 400x100 image placed, Shift already held. *)
Definition wide_placed : t :=
  run [ NgOnInit; Drop one_file;
        ImgOnload (HTMLImageElement.mk "image.png" 400 100);
        KeyDown shift ] new.

(** A 400x100 image is dropped, its resize handle is pressed at (395,95)
    and Shift is held. *)
Definition wide_resizing : t :=
  run [ NgOnInit; Drop one_file;
        ImgOnload (HTMLImageElement.mk "image.png" 400 100);
        MouseDown (MouseEvent.mk 395 95); KeyDown shift ] new.

(** A 100x100 image is dropped and its body is pressed at (50,50). *)
Definition square_dragging : t :=
  run [ NgOnInit; Drop one_file;
        ImgOnload (HTMLImageElement.mk "image.png" 100 100);
        MouseDown (MouseEvent.mk 50 50) ] new.

(** A 10x700 image is dropped on the default 800x600 surface (it is placed
    with width 10 and height 7000) and its body is pressed at (5,500). *)
Definition tall_dragging : t :=
  run [ NgOnInit; Drop one_file;
        ImgOnload (HTMLImageElement.mk "image.png" 10 700);
        MouseDown (MouseEvent.mk 5 500) ] new.

(** Two 100x100 images on the surface, the first dragged to (300,200):
    the point (90,10) is inside the close button of the second. *)
Definition two_squares : t :=
  run [ NgOnInit; Drop one_file;
        ImgOnload (HTMLImageElement.mk "first.png" 100 100);
        MouseDown (MouseEvent.mk 50 50); MouseMove (MouseEvent.mk 350 250);
        MouseUp; Drop one_file;
        ImgOnload (HTMLImageElement.mk "second.png" 100 100) ] new.

(** One image placed, then editing switched off by the host. *)
Definition disabled : t :=
  run [ NgOnInit; Drop one_file;
        ImgOnload (HTMLImageElement.mk "image.png" 100 100);
        MouseDown (MouseEvent.mk 50 50);
        InputsChanged (mkInputs 800 600 false 10 "gray" 20 "red" "white") []
      ] new.

(** A 400x100 image is dropped, resized with Shift held to 32x8 and dragged
    to (100,100), so that its resize handle (the square from (122,98) to
    (132,108)) reaches above its body; a second 400x100 image is dropped at
    the origin, underneath that handle. *)
Definition low_image_over_second : t :=
  run [ NgOnInit; Drop one_file;
        ImgOnload (HTMLImageElement.mk "first.png" 400 100);
        MouseDown (MouseEvent.mk 395 95); KeyDown shift;
        MouseMove (MouseEvent.mk 32 95); MouseUp; KeyUp shift;
        MouseDown (MouseEvent.mk 5 4); MouseMove (MouseEvent.mk 105 104);
        MouseUp; Drop one_file;
        ImgOnload (HTMLImageElement.mk "second.png" 400 100) ] new.

(** Pressing at (125,99), on the part of the first image's handle that lies
    above its body, and releasing. *)
Definition stale_mark : t :=
  run [ MouseDown (MouseEvent.mk 125 99); MouseUp ] low_image_over_second.

(** Then pressing the resize handle of the second image at (395,95). *)
Definition two_marks : t :=
  run [ MouseDown (MouseEvent.mk 395 95) ] stale_mark.

(** ** Notions used to state the handlers' effects *)

(** Two entries show the same bitmap at the same place with the same
    size. *)
Definition same_geometry (d d' : DraggableImage.t) : Prop :=
  DraggableImage.img d' = DraggableImage.img d /\
  DraggableImage.x d' = DraggableImage.x d /\
  DraggableImage.y d' = DraggableImage.y d /\
  DraggableImage.width d' = DraggableImage.width d /\
  DraggableImage.height d' = DraggableImage.height d.

Definition is_key_event (e : event) : bool :=
  match e with KeyDown _ | KeyUp _ => true | _ => false end.

(** The event is the completion of a decode. *)
Definition appends_image (e : event) : bool :=
  match e with ImgOnload _ => true | _ => false end.

(** The event is a pointer-down received with editing enabled whose point
    is in the close button of some image. *)
Definition removes_image (e : event) (this : t) : bool :=
  match e with
  | MouseDown d =>
      editing (inputs this) &&
      existsb (inCloseButtonBounds this (MouseEvent.offsetX d)
                 (MouseEvent.offsetY d)) (images this)
  | _ => false
  end.

(** The bitmaps drawn by a sequence of context calls, in order, each with
    its destination rectangle. *)
Definition drawn (calls : list ctx_call)
  : list (HTMLImageElement.t * (Q * Q * Q * Q)) :=
  flat_map (fun c => match c with
                     | drawImage i x y w h => [(i, (x, y, w, h))]
                     | _ => []
                     end) calls.

(** The rectangles filled by a sequence of context calls. *)
Definition filled (calls : list ctx_call) : list (Q * Q * Q * Q) :=
  flat_map (fun c => match c with
                     | fillRect x y w h => [(x, y, w, h)]
                     | _ => []
                     end) calls.


(** Two placed images, the second one selected for a drag. *)
Definition second_dragging : t :=
  run [ MouseDown (MouseEvent.mk 50 50) ] two_squares.

(** ** Invariant of the editing flag *)

(** While editing is disabled nothing is selected and nothing is dragged. *)
Definition idle_when_disabled (this : t) : Prop :=
  editing (inputs this) = false ->
  selectedImageIndex this = None /\ isDragging this = false.

(** ** Basic facts *)

(** Closed comparisons of rationals, decided by evaluation. *)
Ltac qdecide :=
  vm_compute;
  first [ reflexivity
        | discriminate
        | let H := fresh in intro H; apply H; reflexivity ].

(** Closed goals decided by evaluation. *)
Ltac by_eval := vm_compute; reflexivity.
Ltac decide_eval := apply (bool_decide_unpack _); vm_compute; exact I.

Lemma reachable_run es this : reachable this -> reachable (run es this).
Proof.
  revert this. induction es as [|e es IH]; intros this H; simpl; [exact H|].
  apply IH. now constructor.
Qed.

Ltac unfold_draw :=
  unfold drawImages;
  match goal with |- context [ctx ?c] => destruct (ctx c) end;
  reflexivity.

Lemma images_drawImages c : images (drawImages c) = images c.
Proof. unfold_draw. Qed.

Lemma inputs_drawImages c : inputs (drawImages c) = inputs c.
Proof. unfold_draw. Qed.

Lemma selectedImageIndex_drawImages c :
  selectedImageIndex (drawImages c) = selectedImageIndex c.
Proof. unfold_draw. Qed.

Lemma isDragging_drawImages c : isDragging (drawImages c) = isDragging c.
Proof. unfold_draw. Qed.

Lemma isShiftPressed_drawImages c :
  isShiftPressed (drawImages c) = isShiftPressed c.
Proof. unfold_draw. Qed.

Lemma imagesChange_drawImages c :
  imagesChange (drawImages c) = imagesChange c.
Proof. unfold_draw. Qed.

Lemma offsetX_drawImages c : offsetX (drawImages c) = offsetX c.
Proof. unfold_draw. Qed.

Lemma offsetY_drawImages c : offsetY (drawImages c) = offsetY c.
Proof. unfold_draw. Qed.

Create Rewrite HintDb draw.
#[export] Hint Rewrite images_drawImages inputs_drawImages
  selectedImageIndex_drawImages isDragging_drawImages
  isShiftPressed_drawImages imagesChange_drawImages
  offsetX_drawImages offsetY_drawImages : draw.

Lemma at_index_Some {A} (l : list A) i a :
  at_index l i = Some a -> (0 <= i)%Z /\ l !! Z.to_nat i = Some a.
Proof.
  unfold at_index. destruct (Z.ltb_spec i 0); [discriminate|]. now split.
Qed.

Lemma at_index_of_nat {A} (l : list A) (n : nat) :
  at_index l (Z.of_nat n) = l !! n.
Proof.
  unfold at_index. destruct (Z.ltb_spec (Z.of_nat n) 0); [lia|].
  now rewrite Nat2Z.id.
Qed.

Lemma at_index_insert {A} (l : list A) i a b :
  at_index l i = Some a -> at_index (<[Z.to_nat i := b]> l) i = Some b.
Proof.
  intros H. destruct (at_index_Some _ _ _ H) as [Hi Hl].
  unfold at_index. destruct (Z.ltb_spec i 0); [lia|].
  apply list_lookup_insert_eq. eapply lookup_lt_Some, Hl.
Qed.

(** ** Pointer-move *)

Lemma onMouseMove_idle event this :
  selectedImageIndex this = None -> onMouseMove event this = Normal this.
Proof. intros H. unfold onMouseMove. now rewrite H. Qed.

Lemma onMouseMove_undefined event this i :
  selectedImageIndex this = Some i -> at_index (images this) i = None ->
  onMouseMove event this = TypeError this.
Proof. intros H1 H2. unfold onMouseMove. now rewrite H1, H2. Qed.

Lemma onMouseMove_selected event this i img :
  selectedImageIndex this = Some i -> at_index (images this) i = Some img ->
  onMouseMove event this =
  Normal (drawImages
            (set_images
               (<[Z.to_nat i :=
                    if truthy (DraggableImage.isResizing img)
                    then resized this (MouseEvent.offsetX event)
                                 (MouseEvent.offsetY event) img
                    else if isDragging this
                         then dragged this (MouseEvent.offsetX event)
                                      (MouseEvent.offsetY event) img
                         else img]> (images this)) this)).
Proof. intros H1 H2. unfold onMouseMove. now rewrite H1, H2. Qed.

Lemma resized_width this ox oy img :
  10 <= DraggableImage.width (resized this ox oy img).
Proof.
  unfold resized. destruct (isShiftPressed this); simpl; apply Q.le_max_l.
Qed.

Lemma resized_height_free this ox oy img :
  isShiftPressed this = false ->
  10 <= DraggableImage.height (resized this ox oy img).
Proof. intros H. unfold resized. rewrite H. simpl. apply Q.le_max_l. Qed.

Lemma resized_height_locked this ox oy img :
  isShiftPressed this = true ->
  DraggableImage.height (resized this ox oy img) =
  DraggableImage.width (resized this ox oy img)
  / (nonNull (DraggableImage.initialWidth img)
     / nonNull (DraggableImage.initialHeight img)).
Proof. intros H. unfold resized. rewrite H. reflexivity. Qed.

(** C1 (amended): a pointer-move processed while the selected image is being
    resized leaves its width at least 10 whatever the pointer position; its
    height is at least 10 when Shift is not held, and is the new width
    divided by the frozen aspect ratio when Shift is held. *)
Theorem resize_floor event this i img :
  selectedImageIndex this = Some i ->
  at_index (images this) i = Some img ->
  DraggableImage.isResizing img = Some true ->
  exists this' img',
    onMouseMove event this = Normal this' /\
    at_index (images this') i = Some img' /\
    10 <= DraggableImage.width img' /\
    if isShiftPressed this
    then DraggableImage.height img' =
         DraggableImage.width img'
         / (nonNull (DraggableImage.initialWidth img)
            / nonNull (DraggableImage.initialHeight img))
    else 10 <= DraggableImage.height img'.
Proof.
  intros Hsel Himg Hres.
  rewrite (onMouseMove_selected _ _ _ _ Hsel Himg), Hres. simpl truthy. cbv iota.
  eexists _, _. split; [reflexivity|].
  autorewrite with draw. simpl images.
  split; [eapply at_index_insert, Himg|].
  split; [apply resized_width|].
  destruct (isShiftPressed this) eqn:Hshift.
  - now apply resized_height_locked.
  - now apply resized_height_free.
Qed.

Lemma resize_floor_witness :
  exists this' img',
    onMouseMove (MouseEvent.mk 10 95) wide_resizing = Normal this' /\
    at_index (images this') 0 = Some img' /\
    10 <= DraggableImage.width img' /\
    DraggableImage.height img' = DraggableImage.width img' / (400 / 100).
Proof.
  apply (resize_floor (MouseEvent.mk 10 95) wide_resizing 0%Z
           (DraggableImage.mk (HTMLImageElement.mk "image.png" 400 100)
              0 0 400 100 (Some true) (Some 400) (Some 100)));
    reflexivity.
Defined.

(** C1 (as stated) fails: with Shift held, moving the pointer to (10,95)
    while the 400x100 image is being resized gives width 10 and height
    2.5, below the floor. *)
Lemma resize_floor_counterexample :
  reachable wide_resizing /\
  selectedImageIndex wide_resizing = Some 0%Z /\
  isShiftPressed wide_resizing = true /\
  (exists img, images wide_resizing !! 0%nat = Some img /\
               DraggableImage.isResizing img = Some true) /\
  exists this' img',
    onMouseMove (MouseEvent.mk 10 95) wide_resizing = Normal this' /\
    images this' !! 0%nat = Some img' /\
    DraggableImage.width img' == 10 /\
    DraggableImage.height img' == 2.5 /\
    ~ 10 <= DraggableImage.height img'.
Proof.
  split; [apply reachable_run, reachable_new|].
  do 2 (split; [reflexivity|]).
  split; [eexists; split; reflexivity|].
  eexists _, _. split; [vm_compute; reflexivity|].
  split; [reflexivity|].
  repeat split; qdecide.
Qed.

(** *** Dragging *)

Lemma dragged_upper this ox oy img :
  DraggableImage.x (dragged this ox oy img)
  <= width (inputs this) - DraggableImage.width (dragged this ox oy img) /\
  DraggableImage.y (dragged this ox oy img)
  <= height (inputs this) - DraggableImage.height (dragged this ox oy img).
Proof. unfold dragged. simpl. split; apply Q.le_min_r. Qed.

Lemma dragged_lower_x this ox oy img :
  DraggableImage.width img <= width (inputs this) ->
  0 <= DraggableImage.x (dragged this ox oy img).
Proof.
  intros H. unfold dragged. simpl.
  apply Q.min_glb; [apply Q.le_max_l | lra].
Qed.

Lemma dragged_lower_y this ox oy img :
  DraggableImage.height img <= height (inputs this) ->
  0 <= DraggableImage.y (dragged this ox oy img).
Proof.
  intros H. unfold dragged. simpl.
  apply Q.min_glb; [apply Q.le_max_l | lra].
Qed.

(** C2 (amended): a pointer-move processed while an image that is no larger
    than the surface is being dragged leaves it with
    0 <= x <= surfaceWidth - width and 0 <= y <= surfaceHeight - height,
    wherever the pointer is. *)
Theorem drag_clamped event this i img :
  selectedImageIndex this = Some i ->
  at_index (images this) i = Some img ->
  truthy (DraggableImage.isResizing img) = false ->
  isDragging this = true ->
  DraggableImage.width img <= width (inputs this) ->
  DraggableImage.height img <= height (inputs this) ->
  exists this' img',
    onMouseMove event this = Normal this' /\
    at_index (images this') i = Some img' /\
    0 <= DraggableImage.x img' /\
    DraggableImage.x img'
    <= width (inputs this') - DraggableImage.width img' /\
    0 <= DraggableImage.y img' /\
    DraggableImage.y img'
    <= height (inputs this') - DraggableImage.height img'.
Proof.
  intros Hsel Himg Hres Hdrag Hw Hh.
  rewrite (onMouseMove_selected _ _ _ _ Hsel Himg), Hres, Hdrag.
  eexists _, _. split; [reflexivity|].
  autorewrite with draw. simpl images. simpl inputs.
  split; [eapply at_index_insert, Himg|].
  pose proof (dragged_upper this (MouseEvent.offsetX event)
                (MouseEvent.offsetY event) img) as [Hx Hy].
  repeat split; auto using dragged_lower_x, dragged_lower_y.
Qed.

(** X21: a pointer-move of a drag leaves the image with
    x <= surfaceWidth - width and y <= surfaceHeight - height whatever its
    size and wherever the pointer is: its right and bottom edges never pass
    the surface's. *)
Lemma drag_upper_bound event this i img :
  selectedImageIndex this = Some i ->
  at_index (images this) i = Some img ->
  truthy (DraggableImage.isResizing img) = false ->
  isDragging this = true ->
  exists this' img',
    onMouseMove event this = Normal this' /\
    at_index (images this') i = Some img' /\
    DraggableImage.x img'
    <= width (inputs this') - DraggableImage.width img' /\
    DraggableImage.y img'
    <= height (inputs this') - DraggableImage.height img'.
Proof.
  intros Hsel Himg Hres Hdrag.
  rewrite (onMouseMove_selected _ _ _ _ Hsel Himg), Hres, Hdrag.
  eexists _, _. split; [reflexivity|].
  autorewrite with draw. simpl images. simpl inputs.
  split; [eapply at_index_insert, Himg|]. apply dragged_upper.
Qed.

Lemma drag_clamped_witness :
  exists this' img',
    onMouseMove (MouseEvent.mk 900 (-30)) square_dragging = Normal this' /\
    at_index (images this') 0 = Some img' /\
    0 <= DraggableImage.x img' /\
    DraggableImage.x img'
    <= width (inputs this') - DraggableImage.width img' /\
    0 <= DraggableImage.y img' /\
    DraggableImage.y img'
    <= height (inputs this') - DraggableImage.height img'.
Proof.
  apply (drag_clamped (MouseEvent.mk 900 (-30)) square_dragging 0%Z
           (DraggableImage.mk (HTMLImageElement.mk "image.png" 100 100)
              0 0 100 100 None None None));
    first [reflexivity | qdecide].
Defined.

(** C2 (as stated) fails: the dragged image is taller than the surface, and
    the pointer-move to (6,501) puts it at y = -6400. *)
Lemma drag_clamped_counterexample :
  reachable tall_dragging /\
  selectedImageIndex tall_dragging = Some 0%Z /\
  isDragging tall_dragging = true /\
  (exists img, images tall_dragging !! 0%nat = Some img /\
               DraggableImage.isResizing img = None) /\
  exists this' img',
    onMouseMove (MouseEvent.mk 6 501) tall_dragging = Normal this' /\
    images this' !! 0%nat = Some img' /\
    DraggableImage.height img' == 7000 /\
    DraggableImage.y img' == -6400 /\
    ~ 0 <= DraggableImage.y img'.
Proof.
  split; [apply reachable_run, reachable_new|].
  do 2 (split; [reflexivity|]).
  split; [eexists; split; reflexivity|].
  eexists _, _. split; [vm_compute; reflexivity|].
  split; [reflexivity|].
  repeat split; qdecide.
Qed.

(** A pointer-move with a selected image replaces that one entry: while
    the image is being resized only its width and height can differ,
    otherwise only its x and y can. *)
Lemma onMouseMove_selected_frame event this i img :
  selectedImageIndex this = Some i ->
  at_index (images this) i = Some img ->
  exists img',
    onMouseMove event this =
    Normal (drawImages
              (set_images (<[Z.to_nat i := img']> (images this)) this)) /\
    DraggableImage.img img' = DraggableImage.img img /\
    DraggableImage.isResizing img' = DraggableImage.isResizing img /\
    DraggableImage.initialWidth img' = DraggableImage.initialWidth img /\
    DraggableImage.initialHeight img' = DraggableImage.initialHeight img /\
    if truthy (DraggableImage.isResizing img)
    then DraggableImage.x img' = DraggableImage.x img /\
         DraggableImage.y img' = DraggableImage.y img
    else DraggableImage.width img' = DraggableImage.width img /\
         DraggableImage.height img' = DraggableImage.height img.
Proof.
  intros Hsel Himg.
  rewrite (onMouseMove_selected _ _ _ _ Hsel Himg).
  eexists. split; [reflexivity|].
  unfold resized, dragged.
  destruct (truthy (DraggableImage.isResizing img)),
    (isShiftPressed this), (isDragging this); simpl; auto 10.
Qed.

(** C10: every pointer-move keeps the length and the order of the registry
    and leaves every entry other than the selected one as it was; the
    selected entry keeps its bitmap, its resizing flag and its snapshot, and
    while it is being resized only its width and height can change,
    otherwise only its x and y. *)
Theorem onMouseMove_frame event this :
  let this' := state_of (onMouseMove event this) in
  length (images this') = length (images this) /\
  (forall j : nat,
      selectedImageIndex this <> Some (Z.of_nat j) ->
      images this' !! j = images this !! j) /\
  (forall (j : nat) img',
      images this' !! j = Some img' ->
      exists img,
        images this !! j = Some img /\
        DraggableImage.img img' = DraggableImage.img img /\
        DraggableImage.isResizing img' = DraggableImage.isResizing img /\
        DraggableImage.initialWidth img' = DraggableImage.initialWidth img /\
        DraggableImage.initialHeight img'
        = DraggableImage.initialHeight img /\
        if truthy (DraggableImage.isResizing img)
        then DraggableImage.x img' = DraggableImage.x img /\
             DraggableImage.y img' = DraggableImage.y img
        else DraggableImage.width img' = DraggableImage.width img /\
             DraggableImage.height img' = DraggableImage.height img).
Proof.
  assert (Hsame : forall d : DraggableImage.t,
             exists img, Some d = Some img /\
               DraggableImage.img d = DraggableImage.img img /\
               DraggableImage.isResizing d = DraggableImage.isResizing img /\
               DraggableImage.initialWidth d
               = DraggableImage.initialWidth img /\
               DraggableImage.initialHeight d
               = DraggableImage.initialHeight img /\
               if truthy (DraggableImage.isResizing img)
               then DraggableImage.x d = DraggableImage.x img /\
                    DraggableImage.y d = DraggableImage.y img
               else DraggableImage.width d = DraggableImage.width img /\
                    DraggableImage.height d = DraggableImage.height img).
  { intros d. exists d. destruct (truthy _); auto 10. }
  destruct (selectedImageIndex this) as [i|] eqn:Hsel.
  2:{ rewrite (onMouseMove_idle _ _ Hsel). simpl.
      repeat split; auto. intros j d ->. apply Hsame. }
  destruct (at_index (images this) i) as [img|] eqn:Himg.
  2:{ rewrite (onMouseMove_undefined _ _ _ Hsel Himg). simpl.
      repeat split; auto. intros j d ->. apply Hsame. }
  destruct (onMouseMove_selected_frame event _ _ _ Hsel Himg)
    as (img' & -> & Hframe).
  destruct (at_index_Some _ _ _ Himg) as [Hi Hl].
  simpl. autorewrite with draw. simpl images.
  split; [apply length_insert|].
  split.
  - intros j Hj. apply list_lookup_insert_ne. intros <-.
    apply Hj. now rewrite Z2Nat.id.
  - intros j d Hd. destruct (decide (j = Z.to_nat i)) as [->|Hne].
    + rewrite list_lookup_insert_eq in Hd
        by (eapply lookup_lt_Some, Hl).
      injection Hd as <-. exists img. now split.
    + rewrite list_lookup_insert_ne in Hd by congruence.
      rewrite Hd. apply Hsame.
Qed.

Lemma onMouseMove_frame_witness :
  let this' :=
    state_of (onMouseMove (MouseEvent.mk 900 (-30)) square_dragging) in
  length (images this') = 1%nat /\
  images this' !! 1%nat = None /\
  exists img,
    images square_dragging !! 0%nat = Some img /\
    DraggableImage.width img = 100 /\ DraggableImage.height img = 100.
Proof.
  destruct (onMouseMove_frame (MouseEvent.mk 900 (-30)) square_dragging)
    as (Hlen & Hother & Hsel).
  split; [exact Hlen|].
  split; [now rewrite (Hother 1%nat)|].
  destruct (Hsel 0%nat
              (DraggableImage.mk (HTMLImageElement.mk "image.png" 100 100)
                 700 0 100 100 None None None) eq_refl)
    as (img & Himg & _ & _ & _ & _ & Hframe).
  exists img. split; [exact Himg|].
  vm_compute in Himg. simplify_eq.
  simpl in Hframe. destruct Hframe as [Hw Hh]. now split.
Defined.

(** ** Drop *)

(** What [img.onload] places: the decoded image is appended at (0,0) with
    width = w0 if w0 <= W and 100 otherwise, and height = h0 if h0 <= H and
    h0 / w0 * 100 otherwise, and the change is emitted.  Over exact
    arithmetic the ratio is kept when both dimensions fit or when neither
    does. *)
Lemma drop_placement img this :
  let w0 := HTMLImageElement.width img in
  let h0 := HTMLImageElement.height img in
  let this' := onDrop_img_onload img this in
  exists d,
    images this' = images this ++ [d] /\
    imagesChange this' = imagesChange this ++ [images this'] /\
    DraggableImage.img d = img /\
    DraggableImage.x d = 0 /\ DraggableImage.y d = 0 /\
    DraggableImage.width d
    = (if Qle_bool w0 (width (inputs this)) then w0 else 100) /\
    DraggableImage.height d
    = (if Qle_bool h0 (height (inputs this)) then h0 else h0 / w0 * 100) /\
    DraggableImage.isResizing d = None /\
    (0 < w0 -> 0 < h0 ->
     Qle_bool w0 (width (inputs this)) = Qle_bool h0 (height (inputs this)) ->
     DraggableImage.width d / DraggableImage.height d == w0 / h0).
Proof.
  intros w0 h0 this'. exists (draggableImage_of this img).
  unfold this', onDrop_img_onload, emitImagesChange.
  simpl. autorewrite with draw. simpl.
  repeat (split; [reflexivity|]).
  fold w0 h0. intros Hw Hh ->.
  destruct (Qle_bool h0 (height (inputs this))); [reflexivity|].
  field. split; lra.
Qed.

(** C3: the code breaks the claim.  The height fallback h0 / w0 * 100 is
    the height that keeps the ratio at the fallback width 100, but
    [img.onload] takes its two conditionals independently.  On the 800x600
    surface a dropped 1000x500 image gets the fallback width and keeps its
    own height: it is placed 100x500, with ratio 1/5 and not 2.  In the
    same way a 10x700 image keeps its own width and gets the fallback
    height: it is placed 10x7000. *)
Theorem drop_breaks_aspect_ratio :
  reachable mounted /\
  onDrop one_file mounted = (Normal mounted, Some (File.mk "image.png")) /\
  (exists d,
      images (onDrop_img_onload (HTMLImageElement.mk "image.png" 1000 500)
                mounted) = [d] /\
      Qle_bool 1000 (width (inputs mounted)) = false /\
      DraggableImage.x d == 0 /\ DraggableImage.y d == 0 /\
      DraggableImage.width d == 100 /\
      DraggableImage.height d == 500 /\
      ~ DraggableImage.width d / DraggableImage.height d == 1000 / 500) /\
  (exists d,
      images (onDrop_img_onload (HTMLImageElement.mk "image.png" 10 700)
                mounted) = [d] /\
      DraggableImage.width d == 10 /\
      DraggableImage.height d == 7000 /\
      ~ DraggableImage.width d / DraggableImage.height d == 10 / 700).
Proof.
  split; [apply reachable_run, reachable_new|].
  split; [reflexivity|].
  split; (eexists; split; [reflexivity|]); repeat split; qdecide.
Qed.

(** C9: a drop whose file list is empty, received while editing is enabled,
    leaves the instance as it was and emits nothing, but does not end
    normally: [readAsDataURL] is called with [undefined] and the handler
    ends with a [TypeError]. *)
Theorem onDrop_no_file this :
  editing (inputs this) = true ->
  onDrop (DragEvent.mk (Some (DataTransfer.mk []))) this
  = (TypeError this, None).
Proof. intros H. unfold onDrop. now rewrite H. Qed.

Lemma onDrop_no_file_witness :
  onDrop (DragEvent.mk (Some (DataTransfer.mk []))) mounted
  = (TypeError mounted, None).
Proof. apply (onDrop_no_file mounted). reflexivity. Defined.

(** The guarded cases do end silently. *)
Lemma onDrop_guarded event this :
  editing (inputs this) = false \/ DragEvent.dataTransfer event = None ->
  onDrop event this = (Normal this, None).
Proof.
  intros [H|H]; unfold onDrop; rewrite H; simpl; [reflexivity|].
  now destruct (editing (inputs this)).
Qed.

(** [onDrop] itself never changes the instance. *)
Lemma onDrop_state event this : state_of (fst (onDrop event this)) = this.
Proof.
  unfold onDrop. destruct (editing (inputs this)); simpl; [|reflexivity].
  destruct (DragEvent.dataTransfer event) as [d|]; [|reflexivity].
  now destruct (head (DataTransfer.files d)).
Qed.

(** ** Editing toggle *)

Lemma resetInteractions_images this :
  Forall (fun d => DraggableImage.isResizing d = Some false)
         (images (resetInteractions this)).
Proof.
  unfold resetInteractions. simpl. apply Forall_forall.
  intros d Hd. apply list_elem_of_In, in_map_iff in Hd.
  destruct Hd as (d0 & <- & _). reflexivity.
Qed.






(** The framework reports every change of the flag, in either direction. *)
Lemma bindInputs_editing_changed i changes this :
  editing i <> editing (inputs this) ->
  bindInputs i changes this
  = drawImages (resetInteractions (set_inputs i this)).
Proof.
  intros H. unfold bindInputs, ngOnChanges.
  destruct (editing (inputs this)), (editing i); simpl; congruence.
Qed.

(** ** Pointer-down on a close button *)

Lemma findIndex_from_found {A} (p : A -> bool) (l : list A) (i : Z) :
  (exists a, a ∈ l /\ p a = true) ->
  exists (j : nat) a,
    l !! j = Some a /\ p a = true /\
    (forall (k : nat) b, (k < j)%nat -> l !! k = Some b -> p b = false) /\
    findIndex_from p l i = (i + Z.of_nat j)%Z.
Proof.
  revert i. induction l as [|a0 l IH]; intros i (a & Hin & Hp).
  - inversion Hin.
  - simpl. destruct (p a0) eqn:Hp0.
    + exists 0%nat, a0. repeat split; auto; [lia | lia].
    + assert (Hl : exists a, a ∈ l /\ p a = true).
      { apply elem_of_cons in Hin as [->|Hin]; [congruence|eauto]. }
      destruct (IH (i + 1)%Z Hl) as (j & b & Hj & Hb & Hfirst & Hidx).
      exists (S j), b. repeat split; auto; [|lia].
      intros [|k] c Hk Hc; [simpl in Hc; congruence|].
      apply (Hfirst k); [lia | exact Hc].
Qed.

Lemma findIndex_from_none {A} (p : A -> bool) (l : list A) (i : Z) :
  Forall (fun a => p a = false) l -> findIndex_from p l i = (-1)%Z.
Proof.
  intros H. revert i. induction H as [|a l Ha _ IH]; intros i; simpl;
    [reflexivity|]. rewrite Ha. apply IH.
Qed.

(** C5: with editing enabled, a pointer-down inside the close-button bounds
    of some image removes the first such image in sequence order and nothing
    else: the entries before it and after it are kept as they were, in
    order; the new registry is emitted; no image is selected, the drag
    offsets and the dragging flag are not written, and a following
    pointer-move does nothing.  The body and resize-handle pass is not run. *)
Theorem close_removes_first event this :
  editing (inputs this) = true ->
  (exists img,
      img ∈ images this /\
      inCloseButtonBounds this (MouseEvent.offsetX event)
        (MouseEvent.offsetY event) img = true) ->
  exists (j : nat) img this',
    images this !! j = Some img /\
    inCloseButtonBounds this (MouseEvent.offsetX event)
      (MouseEvent.offsetY event) img = true /\
    (forall (k : nat) b,
        (k < j)%nat -> images this !! k = Some b ->
        inCloseButtonBounds this (MouseEvent.offsetX event)
          (MouseEvent.offsetY event) b = false) /\
    onMouseDown event this = Normal this' /\
    images this' = take j (images this) ++ drop (S j) (images this) /\
    imagesChange this' = imagesChange this ++ [images this'] /\
    selectedImageIndex this' = None /\
    isDragging this' = isDragging this /\
    offsetX this' = offsetX this /\ offsetY this' = offsetY this /\
    forall move, onMouseMove move this' = Normal this'.
Proof.
  intros Hedit Hhit.
  destruct (findIndex_from_found _ _ 0%Z Hhit)
    as (j & img & Hj & Hin & Hfirst & Hidx).
  exists j, img. eexists. do 3 (split; [eassumption|]).
  unfold onMouseDown, findIndex. rewrite Hedit, Hidx. simpl negb.
  destruct (Z.eqb_spec (0 + Z.of_nat j) (-1)) as [Hneg|_]; [lia|].
  simpl negb. cbv iota. split; [reflexivity|].
  unfold splice1, emitImagesChange. rewrite Z.add_0_l, Nat2Z.id.
  simpl. autorewrite with draw. simpl.
  split; [apply delete_take_drop|].
  do 5 (split; [reflexivity|]).
  intros move. apply onMouseMove_idle. simpl.
  now autorewrite with draw.
Qed.

Lemma close_removes_first_witness :
  exists (j : nat) img this',
    images two_squares !! j = Some img /\
    inCloseButtonBounds two_squares 90 10 img = true /\
    (forall (k : nat) b,
        (k < j)%nat -> images two_squares !! k = Some b ->
        inCloseButtonBounds two_squares 90 10 b = false) /\
    onMouseDown (MouseEvent.mk 90 10) two_squares = Normal this' /\
    images this'
    = take j (images two_squares) ++ drop (S j) (images two_squares) /\
    imagesChange this' = imagesChange two_squares ++ [images this'] /\
    selectedImageIndex this' = None /\
    isDragging this' = isDragging two_squares /\
    offsetX this' = offsetX two_squares /\
    offsetY this' = offsetY two_squares /\
    forall move, onMouseMove move this' = Normal this'.
Proof.
  apply (close_removes_first (MouseEvent.mk 90 10) two_squares);
    [reflexivity|].
  exists (DraggableImage.mk (HTMLImageElement.mk "second.png" 100 100)
            0 0 100 100 None None None).
  split; [|reflexivity].
  apply list_elem_of_lookup. exists 1%nat. reflexivity.
Defined.

(** ** Editing disabled *)

Lemma onMouseMove_keeps event this :
  let this' := state_of (onMouseMove event this) in
  inputs this' = inputs this /\
  selectedImageIndex this' = selectedImageIndex this /\
  isDragging this' = isDragging this /\
  isShiftPressed this' = isShiftPressed this /\
  imagesChange this' = imagesChange this.
Proof.
  unfold onMouseMove.
  destruct (selectedImageIndex this) as [i|] eqn:Hsel; simpl; auto.
  destruct (at_index (images this) i); simpl; auto.
  now autorewrite with draw.
Qed.

Lemma onMouseDown_inputs event this :
  inputs (state_of (onMouseDown event this)) = inputs this.
Proof.
  unfold onMouseDown. destruct (editing (inputs this)); simpl; [|reflexivity].
  destruct (negb _); simpl; [now autorewrite with draw|].
  destruct (negb _); simpl; [|reflexivity].
  now destruct (at_index _ _).
Qed.

Lemma reachable_idle_when_disabled this :
  reachable this -> idle_when_disabled this.
Proof.
  induction 1 as [|e this Hreach IH]; [intros H; discriminate H|].
  unfold idle_when_disabled in *. destruct e; simpl.
  - unfold ngOnInit. autorewrite with draw. exact IH.
  - unfold bindInputs, ngOnChanges.
    destruct (Bool.eqb (editing (inputs this)) (editing i)) eqn:Heq.
    + apply Bool.eqb_prop in Heq.
      destruct (has_key "editing" changes); autorewrite with draw; simpl;
        [auto|]. intros Hi. apply IH. congruence.
    + simpl. autorewrite with draw. simpl. auto.
  - now rewrite onDrop_state.
  - unfold onDrop_img_onload, emitImagesChange. simpl.
    autorewrite with draw. exact IH.
  - rewrite onMouseDown_inputs. intros Hedit.
    unfold onMouseDown. rewrite Hedit. simpl. auto.
  - destruct (onMouseMove_keeps e this) as (-> & -> & -> & _). exact IH.
  - unfold onMouseUp. destruct (selectedImageIndex this) as [i|] eqn:Hsel.
    + destruct (at_index (images this) i); simpl; auto.
      now rewrite Hsel.
    + simpl. auto.
  - unfold onKeyDown. now destruct (String.eqb _ _).
  - unfold onKeyUp. now destruct (String.eqb _ _).
  - unfold setImages. autorewrite with draw. exact IH.
Qed.

(** C7: in every reachable state in which editing is disabled, pointer-down,
    pointer-move and pointer-up end normally and leave the whole instance as
    it was: no entry is added, removed, moved, resized or marked, and
    nothing is emitted. *)
Theorem disabled_pointer_noop this down move :
  reachable this ->
  editing (inputs this) = false ->
  onMouseDown down this = Normal this /\
  onMouseMove move this = Normal this /\
  onMouseUp this = Normal this.
Proof.
  intros Hreach Hedit.
  destruct (reachable_idle_when_disabled _ Hreach Hedit) as [Hsel Hdrag].
  split; [unfold onMouseDown; now rewrite Hedit|].
  split; [now apply onMouseMove_idle|].
  unfold onMouseUp. rewrite Hsel.
  destruct this; simpl in *. now subst.
Qed.

Lemma disabled_pointer_noop_witness :
  onMouseDown (MouseEvent.mk 50 50) disabled = Normal disabled /\
  onMouseMove (MouseEvent.mk 60 70) disabled = Normal disabled /\
  onMouseUp disabled = Normal disabled.
Proof.
  apply (disabled_pointer_noop disabled (MouseEvent.mk 50 50)
           (MouseEvent.mk 60 70)).
  - apply reachable_run, reachable_new.
  - reflexivity.
Defined.

(** ** Resize gestures *)

Lemma findIndex_hit_spec this ox oy l i0 :
  snd (findIndex_hit this ox oy l i0) = (-1)%Z \/
  exists (n : nat) img,
    snd (findIndex_hit this ox oy l i0) = (i0 + Z.of_nat n)%Z /\
    l !! n = Some img /\
    inImageBounds ox oy img = true /\
    fst (findIndex_hit this ox oy l i0) !! n
    = Some (if inResizeBounds this ox oy img
            then startResizing img else img).
Proof.
  revert i0. induction l as [|a l IH]; intros i0; simpl; [now left|].
  destruct (inImageBounds ox oy a) eqn:Hin; simpl.
  - right. exists 0%nat, a. repeat split; auto. lia.
  - destruct (IH (i0 + 1)%Z) as [Hnone | (n & img & Hidx & Hl & Hb & Hf)];
      [now left|].
    right. exists (S n), img. repeat split; auto. lia.
Qed.

(** A pointer-down that selects entry [i] leaves that entry as it was, or
    marked with its size snapshotted when the point is in its resize
    bounds. *)
Lemma onMouseDown_selects down this this1 i img :
  editing (inputs this) = true ->
  onMouseDown down this = Normal this1 ->
  selectedImageIndex this1 = Some i ->
  at_index (images this) i = Some img ->
  at_index (images this1) i
  = Some (if inResizeBounds this (MouseEvent.offsetX down)
               (MouseEvent.offsetY down) img
          then startResizing img else img) /\
  isShiftPressed this1 = isShiftPressed this.
Proof.
  intros Hedit Hdown Hsel Himg.
  destruct (at_index_Some _ _ _ Himg) as [Hi Hl].
  unfold onMouseDown in Hdown. rewrite Hedit in Hdown. simpl in Hdown.
  destruct (negb (findIndex _ _ =? -1)%Z).
  { injection Hdown as <-. simpl in Hsel.
    autorewrite with draw in Hsel. discriminate. }
  pose proof (findIndex_hit_spec this (MouseEvent.offsetX down)
                (MouseEvent.offsetY down) (images this) 0%Z) as Hspec.
  destruct (Z.eqb_spec
              (snd (findIndex_hit this (MouseEvent.offsetX down)
                      (MouseEvent.offsetY down) (images this) 0)) (-1))
    as [Hneg|Hpos]; simpl in Hdown.
  { injection Hdown as <-. simpl in Hsel. rewrite Hneg in Hsel.
    injection Hsel as <-. lia. }
  destruct Hspec as [Hnone | (n & img0 & Hidx & Hn & _ & Hf)]; [tauto|].
  destruct (at_index (fst _) _) eqn:Hat in Hdown; [|discriminate].
  injection Hdown as <-. simpl in *.
  injection Hsel as <-. rewrite Hidx in *. rewrite Z.add_0_l in *.
  rewrite Nat2Z.id in Hl. rewrite Hn in Hl. injection Hl as ->.
  split; [|reflexivity]. now rewrite at_index_of_nat.
Qed.

(** One Shift-held pointer-move of a resize keeps the frozen ratio. *)
Lemma resize_locked_step event this i d iw ih :
  selectedImageIndex this = Some i ->
  isShiftPressed this = true ->
  at_index (images this) i = Some d ->
  DraggableImage.isResizing d = Some true ->
  DraggableImage.initialWidth d = Some iw ->
  DraggableImage.initialHeight d = Some ih ->
  ~ iw == 0 -> ~ ih == 0 ->
  let this' := state_of (onMouseMove event this) in
  selectedImageIndex this' = Some i /\
  isShiftPressed this' = true /\
  exists d',
    at_index (images this') i = Some d' /\
    DraggableImage.isResizing d' = Some true /\
    DraggableImage.initialWidth d' = Some iw /\
    DraggableImage.initialHeight d' = Some ih /\
    DraggableImage.width d' / DraggableImage.height d' == iw / ih.
Proof.
  intros Hsel Hshift Hd Hres Hiw Hih Hiw0 Hih0 this'.
  destruct (onMouseMove_keeps event this) as (_ & Hs & _ & Hk & _).
  fold this' in Hs, Hk. rewrite Hs, Hk. do 2 (split; [assumption|]).
  unfold this'. rewrite (onMouseMove_selected _ _ _ _ Hsel Hd), Hres.
  simpl. autorewrite with draw. simpl.
  eexists. split; [eapply at_index_insert, Hd|].
  unfold resized. rewrite Hshift. simpl. rewrite Hiw, Hih. simpl.
  split; [exact Hres|]. do 2 (split; [reflexivity|]).
  set (w := Qmax 10 _).
  assert (Hw : 10 <= w) by apply Q.le_max_l.
  field. repeat split; auto. lra.
Qed.

Lemma resize_locked_moves moves this i d iw ih :
  selectedImageIndex this = Some i ->
  isShiftPressed this = true ->
  at_index (images this) i = Some d ->
  DraggableImage.isResizing d = Some true ->
  DraggableImage.initialWidth d = Some iw ->
  DraggableImage.initialHeight d = Some ih ->
  ~ iw == 0 -> ~ ih == 0 ->
  DraggableImage.width d / DraggableImage.height d == iw / ih ->
  let this' := run (map MouseMove moves) this in
  selectedImageIndex this' = Some i /\
  exists d',
    at_index (images this') i = Some d' /\
    DraggableImage.initialWidth d' = Some iw /\
    DraggableImage.initialHeight d' = Some ih /\
    DraggableImage.width d' / DraggableImage.height d' == iw / ih.
Proof.
  revert this d. induction moves as [|e moves IH];
    intros this d Hsel Hshift Hd Hres Hiw Hih Hiw0 Hih0 Hratio; simpl.
  - split; [assumption|]. exists d. auto.
  - destruct (resize_locked_step e this i d iw ih)
      as (Hsel' & Hshift' & d' & Hd' & Hres' & Hiw' & Hih' & Hratio');
      auto.
    apply (IH _ d'); auto.
Qed.

(** C6: a resize gesture (a pointer-down with editing enabled that selects
    an image through its resize handle, any number of pointer-moves with
    Shift held, and the pointer-up) ends with width / height equal to the
    ratio of the width and height snapshotted at the pointer-down, over
    exact arithmetic, whether or not the width floor was applied. *)
Theorem aspect_lock down moves this this1 i img :
  editing (inputs this) = true ->
  isShiftPressed this = true ->
  onMouseDown down this = Normal this1 ->
  selectedImageIndex this1 = Some i ->
  at_index (images this) i = Some img ->
  inResizeBounds this (MouseEvent.offsetX down) (MouseEvent.offsetY down) img
  = true ->
  ~ DraggableImage.width img == 0 ->
  ~ DraggableImage.height img == 0 ->
  exists img',
    at_index (images (run (map MouseMove moves ++ [MouseUp]) this1)) i
    = Some img' /\
    DraggableImage.initialWidth img' = Some (DraggableImage.width img) /\
    DraggableImage.initialHeight img' = Some (DraggableImage.height img) /\
    DraggableImage.isResizing img' = Some false /\
    DraggableImage.width img' / DraggableImage.height img'
    == DraggableImage.width img / DraggableImage.height img.
Proof.
  intros Hedit Hshift Hdown Hsel Himg Hhandle Hw0 Hh0.
  destruct (onMouseDown_selects _ _ _ _ _ Hedit Hdown Hsel Himg)
    as [Hstart Hshift1].
  rewrite Hhandle in Hstart. rewrite Hshift in Hshift1.
  destruct (resize_locked_moves moves this1 i (startResizing img)
              (DraggableImage.width img) (DraggableImage.height img))
    as (Hsel2 & d & Hd & Hiw & Hih & Hratio); auto; try reflexivity.
  unfold run in *. rewrite fold_left_app. simpl.
  set (this2 := fold_left _ (map MouseMove moves) this1) in *.
  unfold onMouseUp. rewrite Hsel2, Hd. simpl.
  eexists. split; [eapply at_index_insert, Hd|]. simpl. auto.
Qed.

Lemma aspect_lock_witness :
  exists img',
    at_index
      (images
         (run (map MouseMove [MouseEvent.mk 32 95; MouseEvent.mk 5 40]
               ++ [MouseUp])
              (state_of (onMouseDown (MouseEvent.mk 395 95) wide_placed))))
      0 = Some img' /\
    DraggableImage.initialWidth img' = Some 400 /\
    DraggableImage.initialHeight img' = Some 100 /\
    DraggableImage.isResizing img' = Some false /\
    DraggableImage.width img' / DraggableImage.height img' == 400 / 100.
Proof.
  apply (aspect_lock (MouseEvent.mk 395 95)
           [MouseEvent.mk 32 95; MouseEvent.mk 5 40] wide_placed
           (state_of (onMouseDown (MouseEvent.mk 395 95) wide_placed)) 0%Z
           (DraggableImage.mk (HTMLImageElement.mk "image.png" 400 100)
              0 0 400 100 None None None));
    first [reflexivity | qdecide].
Defined.

(** ** The resizing flag *)

Lemma resizing_count_cons d l :
  resizing_count (d :: l)
  = ((if truthy (DraggableImage.isResizing d) then 1 else 0)
     + resizing_count l)%nat.
Proof.
  unfold resizing_count. rewrite filter_cons.
  case_decide as Hd; destruct (truthy (DraggableImage.isResizing d));
    simpl; congruence.
Qed.

Lemma inResizeBounds_inImageBounds this ox oy img :
  0 <= resizeHandleSize (inputs this) ->
  resizeHandleSize (inputs this) <= DraggableImage.width img ->
  resizeHandleSize (inputs this) <= DraggableImage.height img ->
  inResizeBounds this ox oy img = true -> inImageBounds ox oy img = true.
Proof.
  unfold inResizeBounds, inImageBounds. intros H0 Hw Hh H.
  repeat (apply andb_prop in H as [H ?]).
  repeat match goal with
         | Hb : Qle_bool _ _ = true |- _ => apply Qle_bool_iff in Hb
         end.
  repeat (apply andb_true_intro; split); apply Qle_bool_iff; lra.
Qed.

(** When every handle lies within its image and nothing is marked, the
    hit pass marks at most one image. *)
Lemma findIndex_hit_marks_at_most_one this ox oy l i0 :
  0 <= resizeHandleSize (inputs this) ->
  Forall (fun d =>
            resizeHandleSize (inputs this) <= DraggableImage.width d /\
            resizeHandleSize (inputs this) <= DraggableImage.height d) l ->
  resizing_count l = 0%nat ->
  (resizing_count (fst (findIndex_hit this ox oy l i0)) <= 1)%nat.
Proof.
  intros H0 Hall. revert i0.
  induction Hall as [|d l [Hw Hh] _ IH]; intros i0 Hcount; simpl; [lia|].
  rewrite resizing_count_cons in Hcount.
  destruct (truthy (DraggableImage.isResizing d)) eqn:Hd; [lia|].
  simpl in Hcount.
  destruct (inImageBounds ox oy d) eqn:Hin; simpl;
    rewrite resizing_count_cons.
  - rewrite Hcount.
    destruct (inResizeBounds this ox oy d); simpl; rewrite ?Hd; simpl; lia.
  - destruct (inResizeBounds this ox oy d) eqn:Hres.
    + rewrite (inResizeBounds_inImageBounds _ _ _ _ H0 Hw Hh Hres) in Hin.
      discriminate.
    + rewrite Hd. specialize (IH (i0 + 1)%Z Hcount). simpl. lia.
Qed.

(** C4: the invariant fails on the code.  In [low_image_over_second] no
    entry is marked.  The press at (125,99) marks the first image, whose
    handle contains the point, and selects the second, whose body does; the
    release clears only the selected one, so the first stays marked with
    nothing selected.  The next press on the second image's handle leaves
    both entries with [isResizing = true]. *)
Theorem resizing_flag_not_unique :
  reachable two_marks /\
  resizing_count (images low_image_over_second) = 0%nat /\
  selectedImageIndex
    (state_of (onMouseDown (MouseEvent.mk 125 99) low_image_over_second))
  = Some 1%Z /\
  DraggableImage.isResizing
  <$> images
        (state_of (onMouseDown (MouseEvent.mk 125 99) low_image_over_second))
  = [Some true; None] /\
  selectedImageIndex stale_mark = None /\
  DraggableImage.isResizing <$> images stale_mark
  = [Some true; Some false] /\
  DraggableImage.isResizing <$> images two_marks = [Some true; Some true] /\
  resizing_count (images two_marks) = 2%nat.
Proof.
  split; [do 3 apply reachable_run; apply reachable_new|].
  repeat split; vm_compute; reflexivity.
Qed.

(** ** Further properties of pointer-down *)

Lemma same_geometry_refl d : same_geometry d d.
Proof. now repeat split. Qed.

Lemma same_geometry_startResizing d : same_geometry d (startResizing d).
Proof. now repeat split. Qed.

Lemma Forall2_same_geometry_refl l : Forall2 same_geometry l l.
Proof. induction l; constructor; auto using same_geometry_refl. Qed.

Lemma findIndex_hit_geometry this ox oy l i0 :
  Forall2 same_geometry l (fst (findIndex_hit this ox oy l i0)).
Proof.
  revert i0. induction l as [|d l IH]; intros i0; simpl; [constructor|].
  assert (Hd : same_geometry d
                 (if inResizeBounds this ox oy d
                  then startResizing d else d)).
  { destruct (inResizeBounds this ox oy d);
      auto using same_geometry_refl, same_geometry_startResizing. }
  destruct (inImageBounds ox oy d); simpl; constructor; auto.
  apply Forall2_same_geometry_refl.
Qed.

Lemma findIndex_hit_none this ox oy l i0 :
  Forall (fun d => inImageBounds ox oy d = false) l ->
  snd (findIndex_hit this ox oy l i0) = (-1)%Z.
Proof.
  intros H. revert i0. induction H as [|d l Hd _ IH]; intros i0; simpl;
    [reflexivity|]. rewrite Hd. simpl. apply IH.
Qed.

Lemma findIndex_hit_at this ox oy l i0 (j : nat) img :
  l !! j = Some img ->
  inImageBounds ox oy img = true ->
  (forall (k : nat) b,
      (k < j)%nat -> l !! k = Some b -> inImageBounds ox oy b = false) ->
  snd (findIndex_hit this ox oy l i0) = (i0 + Z.of_nat j)%Z /\
  fst (findIndex_hit this ox oy l i0) !! j
  = Some (if inResizeBounds this ox oy img then startResizing img else img).
Proof.
  revert i0 j. induction l as [|d l IH]; intros i0 j Hj Hin Hfirst;
    [discriminate|].
  destruct j as [|j]; simpl in *.
  - injection Hj as ->. rewrite Hin. simpl. split; [lia | reflexivity].
  - rewrite (Hfirst 0%nat d) by (simpl; auto; lia). simpl.
    destruct (IH (i0 + 1)%Z j Hj Hin) as [Hidx Hat].
    + intros k b Hk Hb. apply (Hfirst (S k)); [lia | exact Hb].
    + split; [lia | exact Hat].
Qed.

(** The state reached by a pointer-down whose point is in no close button:
    the hit pass has run, its result is the selection. *)
Lemma onMouseDown_hit_pass down this :
  editing (inputs this) = true ->
  Forall (fun d =>
            inCloseButtonBounds this (MouseEvent.offsetX down)
              (MouseEvent.offsetY down) d = false) (images this) ->
  let hit := findIndex_hit this (MouseEvent.offsetX down)
               (MouseEvent.offsetY down) (images this) 0 in
  let this1 :=
    set_selectedImageIndex (Some (snd hit)) (set_images (fst hit) this) in
  onMouseDown down this =
  if negb (snd hit =? -1)%Z then
    match at_index (fst hit) (snd hit) with
    | None => TypeError this1
    | Some img =>
        Normal
          (set_isDragging true
             (set_offsetY (MouseEvent.offsetY down - DraggableImage.y img)
                (set_offsetX (MouseEvent.offsetX down - DraggableImage.x img)
                   this1)))
    end
  else Normal this1.
Proof.
  intros Hedit Hclose. unfold onMouseDown, findIndex.
  rewrite Hedit, (findIndex_from_none _ _ _ Hclose). reflexivity.
Qed.

(** X1: with editing enabled, a pointer-down that is in no close button and
    in no image body leaves [selectedImageIndex] at -1, not [null]; every
    following pointer-move, and the pointer-up, then read [images[-1]], end
    with a [TypeError] and leave the instance as it is, so the selection is
    not cleared. *)
Theorem onMouseDown_miss_sticks down this :
  editing (inputs this) = true ->
  Forall (fun d =>
            inCloseButtonBounds this (MouseEvent.offsetX down)
              (MouseEvent.offsetY down) d = false) (images this) ->
  Forall (fun d =>
            inImageBounds (MouseEvent.offsetX down) (MouseEvent.offsetY down)
              d = false) (images this) ->
  exists this1,
    onMouseDown down this = Normal this1 /\
    selectedImageIndex this1 = Some (-1)%Z /\
    (forall move, onMouseMove move this1 = TypeError this1) /\
    onMouseUp this1 = TypeError this1.
Proof.
  intros Hedit Hclose Hbody.
  rewrite (onMouseDown_hit_pass _ _ Hedit Hclose).
  rewrite (findIndex_hit_none _ _ _ _ 0%Z Hbody). simpl.
  eexists. split; [reflexivity|]. split; [reflexivity|].
  split; [intros move; now apply onMouseMove_undefined with (i := (-1)%Z)|].
  reflexivity.
Qed.

Lemma onMouseDown_miss_sticks_witness :
  exists this1,
    onMouseDown (MouseEvent.mk 400 300) square_dragging = Normal this1 /\
    selectedImageIndex this1 = Some (-1)%Z /\
    (forall move, onMouseMove move this1 = TypeError this1) /\
    onMouseUp this1 = TypeError this1.
Proof.
  apply (onMouseDown_miss_sticks (MouseEvent.mk 400 300) square_dragging);
    [by_eval | decide_eval | decide_eval].
Defined.

(** X2: [onMouseDown] always ends normally: the index returned by the hit
    pass, when it is not -1, is an index of the registry. *)
Theorem onMouseDown_completes down this :
  exists this1, onMouseDown down this = Normal this1.
Proof.
  unfold onMouseDown.
  destruct (editing (inputs this)); simpl; [|eauto].
  destruct (negb (findIndex _ _ =? -1)%Z); [eauto|].
  set (hit := findIndex_hit _ _ _ _ _).
  destruct (Z.eqb_spec (snd hit) (-1)) as [Hneg|Hpos]; simpl; [eauto|].
  destruct (findIndex_hit_spec this (MouseEvent.offsetX down)
              (MouseEvent.offsetY down) (images this) 0%Z)
    as [Hnone | (n & img & Hidx & _ & _ & Hat)]; [contradiction|].
  fold hit in Hidx, Hat. rewrite Hidx, Z.add_0_l, at_index_of_nat, Hat.
  eauto.
Qed.

(** The state after a pointer-down that selects entry [j]. *)
Lemma onMouseDown_selected down this (j : nat) img :
  editing (inputs this) = true ->
  Forall (fun d =>
            inCloseButtonBounds this (MouseEvent.offsetX down)
              (MouseEvent.offsetY down) d = false) (images this) ->
  images this !! j = Some img ->
  inImageBounds (MouseEvent.offsetX down) (MouseEvent.offsetY down) img
  = true ->
  (forall (k : nat) b,
      (k < j)%nat -> images this !! k = Some b ->
      inImageBounds (MouseEvent.offsetX down) (MouseEvent.offsetY down) b
      = false) ->
  exists this1,
    onMouseDown down this = Normal this1 /\
    selectedImageIndex this1 = Some (Z.of_nat j) /\
    isDragging this1 = true /\
    offsetX this1 = MouseEvent.offsetX down - DraggableImage.x img /\
    offsetY this1 = MouseEvent.offsetY down - DraggableImage.y img /\
    images this1 !! j
    = Some (if inResizeBounds this (MouseEvent.offsetX down)
                 (MouseEvent.offsetY down) img
            then startResizing img else img) /\
    imagesChange this1 = imagesChange this /\
    ctx this1 = ctx this /\
    inputs this1 = inputs this.
Proof.
  intros Hedit Hclose Hj Hin Hfirst.
  rewrite (onMouseDown_hit_pass _ _ Hedit Hclose).
  destruct (findIndex_hit_at this _ _ _ 0%Z j img Hj Hin Hfirst)
    as [Hidx Hat].
  rewrite Hidx, Z.add_0_l, at_index_of_nat, Hat.
  destruct (Z.eqb_spec (Z.of_nat j) (-1)) as [Hneg|_]; [lia|]. simpl.
  eexists. split; [reflexivity|]. simpl.
  repeat split; auto; now destruct (inResizeBounds _ _ _ _).
Qed.


(** X3: with editing enabled and the point in no close button, pointer-down
    selects the first image in sequence order whose body contains the point
    (not the one drawn on top), records the pointer's offset from its
    corner and sets the dragging flag, also when the resize handle was hit;
    nothing is emitted and nothing is drawn. *)
Theorem onMouseDown_selects_first down this (j : nat) img :
  editing (inputs this) = true ->
  Forall (fun d =>
            inCloseButtonBounds this (MouseEvent.offsetX down)
              (MouseEvent.offsetY down) d = false) (images this) ->
  images this !! j = Some img ->
  inImageBounds (MouseEvent.offsetX down) (MouseEvent.offsetY down) img
  = true ->
  (forall (k : nat) b,
      (k < j)%nat -> images this !! k = Some b ->
      inImageBounds (MouseEvent.offsetX down) (MouseEvent.offsetY down) b
      = false) ->
  exists this1,
    onMouseDown down this = Normal this1 /\
    selectedImageIndex this1 = Some (Z.of_nat j) /\
    isDragging this1 = true /\
    offsetX this1 = MouseEvent.offsetX down - DraggableImage.x img /\
    offsetY this1 = MouseEvent.offsetY down - DraggableImage.y img /\
    images this1 !! j
    = Some (if inResizeBounds this (MouseEvent.offsetX down)
                 (MouseEvent.offsetY down) img
            then startResizing img else img) /\
    imagesChange this1 = imagesChange this /\
    ctx this1 = ctx this.
Proof.
  intros Hedit Hclose Hj Hin Hfirst.
  destruct (onMouseDown_selected _ _ _ _ Hedit Hclose Hj Hin Hfirst)
    as (this1 & H). exists this1. tauto.
Qed.

Lemma onMouseDown_selects_first_witness :
  exists this1,
    onMouseDown (MouseEvent.mk 50 50) two_squares = Normal this1 /\
    selectedImageIndex this1 = Some 1%Z /\
    isDragging this1 = true /\
    offsetX this1 = 50 - 0 /\
    offsetY this1 = 50 - 0.
Proof.
  destruct (onMouseDown_selects_first (MouseEvent.mk 50 50) two_squares 1%nat
              (DraggableImage.mk (HTMLImageElement.mk "second.png" 100 100)
                 0 0 100 100 None None None))
    as (this1 & H1 & H2 & H3 & H4 & H5 & _).
  - by_eval.
  - decide_eval.
  - by_eval.
  - by_eval.
  - intros [|k] b Hk Hb; [|lia]. vm_compute in Hb. now simplify_eq.
  - exists this1. auto.
Defined.

(** X4: a pointer-down whose point is in no close button never moves,
    resizes, adds or removes an image (only the resizing flag and the size
    snapshot of an entry can change), emits nothing, draws nothing and
    leaves the inputs and the modifier flag alone. *)
Theorem onMouseDown_keeps_geometry down this :
  Forall (fun d =>
            inCloseButtonBounds this (MouseEvent.offsetX down)
              (MouseEvent.offsetY down) d = false) (images this) ->
  let this1 := state_of (onMouseDown down this) in
  Forall2 same_geometry (images this) (images this1) /\
  imagesChange this1 = imagesChange this /\
  ctx this1 = ctx this /\
  inputs this1 = inputs this /\
  isShiftPressed this1 = isShiftPressed this.
Proof.
  intros Hclose.
  destruct (editing (inputs this)) eqn:Hedit.
  2:{ unfold onMouseDown. rewrite Hedit. simpl.
      repeat split; auto using Forall2_same_geometry_refl. }
  rewrite (onMouseDown_hit_pass _ _ Hedit Hclose).
  pose proof (findIndex_hit_geometry this (MouseEvent.offsetX down)
                (MouseEvent.offsetY down) (images this) 0%Z) as Hgeo.
  destruct (negb _); [destruct (at_index _ _)|]; simpl; auto.
Qed.

Lemma onMouseDown_keeps_geometry_witness :
  let this1 :=
    state_of (onMouseDown (MouseEvent.mk 395 95) wide_placed) in
  Forall2 same_geometry (images wide_placed) (images this1) /\
  imagesChange this1 = imagesChange wide_placed /\
  ctx this1 = ctx wide_placed /\
  inputs this1 = inputs wide_placed /\
  isShiftPressed this1 = isShiftPressed wide_placed.
Proof.
  apply (onMouseDown_keeps_geometry (MouseEvent.mk 395 95) wide_placed).
  decide_eval.
Defined.

(** ** Further properties of pointer-move and pointer-up *)

Lemma clamp_inside v ub : 0 <= v -> v <= ub -> Qmin (Qmax 0 v) ub == v.
Proof.
  intros H0 Hub.
  pose proof (Q.max_spec 0 v) as Hm.
  pose proof (Q.min_spec (Qmax 0 v) ub) as Hn.
  set (m := Qmax 0 v) in *. set (n := Qmin m ub) in *. lra.
Qed.

(** X5: a drag is relative to where the image was grabbed.  After a
    pointer-down at (px,py) that selects an image by its body (resize
    handle not hit, image not marked), a pointer-move to (mx,my) puts the
    image at x = mx - (px - x0) and y = my - (py - y0), where (x0,y0) is
    where it was, whenever these values lie between 0 and
    surfaceWidth - width, respectively surfaceHeight - height; its size is
    unchanged. *)
Theorem drag_follows_pointer down move this (j : nat) img :
  editing (inputs this) = true ->
  Forall (fun d =>
            inCloseButtonBounds this (MouseEvent.offsetX down)
              (MouseEvent.offsetY down) d = false) (images this) ->
  images this !! j = Some img ->
  inImageBounds (MouseEvent.offsetX down) (MouseEvent.offsetY down) img
  = true ->
  (forall (k : nat) b,
      (k < j)%nat -> images this !! k = Some b ->
      inImageBounds (MouseEvent.offsetX down) (MouseEvent.offsetY down) b
      = false) ->
  inResizeBounds this (MouseEvent.offsetX down) (MouseEvent.offsetY down) img
  = false ->
  truthy (DraggableImage.isResizing img) = false ->
  0 <= MouseEvent.offsetX move
       - (MouseEvent.offsetX down - DraggableImage.x img) ->
  MouseEvent.offsetX move - (MouseEvent.offsetX down - DraggableImage.x img)
  <= width (inputs this) - DraggableImage.width img ->
  0 <= MouseEvent.offsetY move
       - (MouseEvent.offsetY down - DraggableImage.y img) ->
  MouseEvent.offsetY move - (MouseEvent.offsetY down - DraggableImage.y img)
  <= height (inputs this) - DraggableImage.height img ->
  exists this1 this2 img',
    onMouseDown down this = Normal this1 /\
    onMouseMove move this1 = Normal this2 /\
    images this2 !! j = Some img' /\
    DraggableImage.x img'
    == MouseEvent.offsetX move
       - (MouseEvent.offsetX down - DraggableImage.x img) /\
    DraggableImage.y img'
    == MouseEvent.offsetY move
       - (MouseEvent.offsetY down - DraggableImage.y img) /\
    DraggableImage.width img' = DraggableImage.width img /\
    DraggableImage.height img' = DraggableImage.height img.
Proof.
  intros Hedit Hclose Hj Hin Hfirst Hres Hmark Hx0 Hx1 Hy0 Hy1.
  destruct (onMouseDown_selected _ _ _ _ Hedit Hclose Hj Hin Hfirst)
    as (this1 & Hdown & Hsel & Hdrag & Hox & Hoy & Hat & _ & _ & Hinp).
  rewrite Hres in Hat. rewrite <- at_index_of_nat in Hat.
  exists this1. eexists _, _. split; [exact Hdown|].
  rewrite (onMouseMove_selected _ _ _ _ Hsel Hat), Hmark, Hdrag.
  split; [reflexivity|].
  autorewrite with draw. simpl images.
  rewrite <- at_index_of_nat.
  split; [eapply at_index_insert, Hat|].
  unfold dragged. simpl. rewrite Hox, Hoy, Hinp.
  split; [now apply clamp_inside|].
  split; [now apply clamp_inside|]. now split.
Qed.

Lemma drag_follows_pointer_witness :
  exists this1 this2 img',
    onMouseDown (MouseEvent.mk 50 50) two_squares = Normal this1 /\
    onMouseMove (MouseEvent.mk 80 90) this1 = Normal this2 /\
    images this2 !! 1%nat = Some img' /\
    DraggableImage.x img' == 80 - (50 - 0) /\
    DraggableImage.y img' == 90 - (50 - 0) /\
    DraggableImage.width img' = 100 /\
    DraggableImage.height img' = 100.
Proof.
  apply (drag_follows_pointer (MouseEvent.mk 50 50) (MouseEvent.mk 80 90)
           two_squares 1%nat
           (DraggableImage.mk (HTMLImageElement.mk "second.png" 100 100)
              0 0 100 100 None None None)).
  - by_eval.
  - decide_eval.
  - by_eval.
  - by_eval.
  - intros [|k] b Hk Hb; [|lia]. vm_compute in Hb. now simplify_eq.
  - by_eval.
  - by_eval.
  - qdecide.
  - qdecide.
  - qdecide.
  - qdecide.
Defined.

(** X7: pointer-up never moves, resizes, adds or removes an image, emits
    nothing and draws nothing; it either ends with a [TypeError] and leaves
    the instance as it was (the selected index is not an index of the
    registry), or ends with no selection and the dragging flag cleared. *)
Theorem onMouseUp_frame this :
  let this' := state_of (onMouseUp this) in
  Forall2 same_geometry (images this) (images this') /\
  imagesChange this' = imagesChange this /\
  ctx this' = ctx this /\
  (onMouseUp this = TypeError this \/
   onMouseUp this = Normal this' /\
   selectedImageIndex this' = None /\ isDragging this' = false).
Proof.
  unfold onMouseUp.
  destruct (selectedImageIndex this) as [i|] eqn:Hsel.
  2:{ simpl. repeat split; auto using Forall2_same_geometry_refl. }
  destruct (at_index (images this) i) as [img|] eqn:Himg.
  2:{ simpl. repeat split; auto using Forall2_same_geometry_refl. }
  simpl. repeat split; auto.
  destruct (at_index_Some _ _ _ Himg) as [_ Hl].
  apply Forall2_same_length_lookup. split; [now rewrite length_insert|].
  intros j d d' Hd Hd'.
  destruct (decide (j = Z.to_nat i)) as [->|Hne].
  - rewrite list_lookup_insert_eq in Hd' by (eapply lookup_lt_Some, Hl).
    simplify_eq. now repeat split.
  - rewrite list_lookup_insert_ne in Hd' by congruence.
    simplify_eq. apply same_geometry_refl.
Qed.

(** ** The registry seen from the host *)

(** X8: [setImages] installs the given list (it is what [getImages]
    returns next) without emitting and without touching the selection, the
    dragging flag or the drag offsets.  So when a selection is active and
    the new list has no entry at the selected index, the next pointer-move
    and the next pointer-up end with a [TypeError] and change nothing. *)
Theorem setImages_keeps_selection l event this :
  let this' := setImages l this in
  getImages this' = l /\
  imagesChange this' = imagesChange this /\
  selectedImageIndex this' = selectedImageIndex this /\
  isDragging this' = isDragging this /\
  offsetX this' = offsetX this /\ offsetY this' = offsetY this /\
  forall i,
    selectedImageIndex this = Some i ->
    (Z.of_nat (length l) <= i)%Z ->
    onMouseMove event this' = TypeError this' /\
    onMouseUp this' = TypeError this'.
Proof.
  intros this'.
  assert (Himgs : images this' = l)
    by (unfold this', setImages; now autorewrite with draw).
  assert (Hsel' : selectedImageIndex this' = selectedImageIndex this)
    by (unfold this', setImages; now autorewrite with draw).
  split; [exact Himgs|].
  split; [unfold this', setImages; now autorewrite with draw|].
  split; [exact Hsel'|].
  do 3 (split; [unfold this', setImages; now autorewrite with draw|]).
  intros i Hsel Hlen. rewrite Hsel in Hsel'.
  assert (Hat : at_index (images this') i = None).
  { rewrite Himgs. unfold at_index.
    destruct (Z.ltb_spec i 0); [reflexivity|].
    apply lookup_ge_None. lia. }
  split; [now apply onMouseMove_undefined with (i := i)|].
  unfold onMouseUp. now rewrite Hsel', Hat.
Qed.

Lemma setImages_keeps_selection_witness :
  let this' := setImages [] square_dragging in
  getImages this' = [] /\
  imagesChange this' = imagesChange square_dragging /\
  selectedImageIndex this' = Some 0%Z /\
  onMouseMove (MouseEvent.mk 60 60) this' = TypeError this' /\
  onMouseUp this' = TypeError this'.
Proof.
  destruct (setImages_keeps_selection [] (MouseEvent.mk 60 60)
              square_dragging)
    as (Himgs & Hemit & Hsel & _ & _ & _ & Hstale).
  split; [exact Himgs|]. split; [exact Hemit|].
  split; [rewrite Hsel; by_eval|].
  apply (Hstale 0%Z); [by_eval | simpl; lia].
Defined.

(** X9: a decode that completes while a gesture is in progress appends
    behind the selected image: the selection, the drag offsets and the
    selected entry are as before, so the gesture goes on with the same
    image. *)
Theorem drop_completion_keeps_gesture img this i d :
  selectedImageIndex this = Some i ->
  at_index (images this) i = Some d ->
  let this' := onDrop_img_onload img this in
  selectedImageIndex this' = Some i /\
  at_index (images this') i = Some d /\
  length (images this') = S (length (images this)) /\
  isDragging this' = isDragging this /\
  offsetX this' = offsetX this /\ offsetY this' = offsetY this.
Proof.
  intros Hsel Hd this'. unfold this', onDrop_img_onload, emitImagesChange.
  simpl. autorewrite with draw. simpl.
  destruct (at_index_Some _ _ _ Hd) as [Hi Hl].
  repeat split; auto.
  - unfold at_index. destruct (Z.ltb_spec i 0); [lia|].
    now apply lookup_app_l_Some.
  - rewrite length_app. simpl. lia.
Qed.

Lemma drop_completion_keeps_gesture_witness :
  let this' :=
    onDrop_img_onload (HTMLImageElement.mk "late.png" 30 30)
      square_dragging in
  selectedImageIndex this' = Some 0%Z /\
  at_index (images this') 0
  = Some (DraggableImage.mk (HTMLImageElement.mk "image.png" 100 100)
            0 0 100 100 None None None) /\
  length (images this') = S (length (images square_dragging)) /\
  isDragging this' = isDragging square_dragging /\
  offsetX this' = offsetX square_dragging /\
  offsetY this' = offsetY square_dragging.
Proof.
  apply (drop_completion_keeps_gesture
           (HTMLImageElement.mk "late.png" 30 30) square_dragging 0%Z);
    by_eval.
Defined.

(** ** What the handlers leave alone *)

Lemma onMouseDown_keeps_shift down this :
  isShiftPressed (state_of (onMouseDown down this)) = isShiftPressed this.
Proof.
  unfold onMouseDown. destruct (editing (inputs this)); simpl; [|reflexivity].
  destruct (negb _); simpl; [now autorewrite with draw|].
  destruct (negb _); simpl; [|reflexivity].
  now destruct (at_index _ _).
Qed.

Lemma onMouseUp_keeps this :
  let this' := state_of (onMouseUp this) in
  inputs this' = inputs this /\
  isShiftPressed this' = isShiftPressed this /\
  imagesChange this' = imagesChange this /\
  ctx this' = ctx this.
Proof.
  unfold onMouseUp. destruct (selectedImageIndex this) as [i|]; simpl; auto.
  destruct (at_index (images this) i); simpl; auto.
Qed.

(** X10: only the keyboard handlers write the modifier flag: every other
    event (an editing toggle and a pointer-up included) leaves
    [isShiftPressed] as it was. *)
Theorem only_keys_change_shift e this :
  is_key_event e = false ->
  isShiftPressed (step e this) = isShiftPressed this.
Proof.
  intros He. destruct e; try discriminate; simpl.
  - unfold ngOnInit. now autorewrite with draw.
  - unfold bindInputs, ngOnChanges.
    destruct (has_key _ _); now autorewrite with draw.
  - now rewrite onDrop_state.
  - unfold onDrop_img_onload, emitImagesChange. simpl.
    now autorewrite with draw.
  - apply onMouseDown_keeps_shift.
  - now destruct (onMouseMove_keeps e this) as (_ & _ & _ & -> & _).
  - now destruct (onMouseUp_keeps this) as (_ & -> & _).
  - unfold setImages. now autorewrite with draw.
Qed.

Lemma only_keys_change_shift_witness :
  isShiftPressed
    (step (InputsChanged (mkInputs 800 600 false 10 "gray" 20 "red" "white")
             []) wide_resizing)
  = isShiftPressed wide_resizing.
Proof.
  apply (only_keys_change_shift
           (InputsChanged (mkInputs 800 600 false 10 "gray" 20 "red" "white")
              []) wide_resizing).
  reflexivity.
Defined.

Lemma findIndex_from_existsb {A} (p : A -> bool) (l : list A) (i : Z) :
  (0 <= i)%Z ->
  (findIndex_from p l i =? -1)%Z = negb (existsb p l).
Proof.
  revert i. induction l as [|a l IH]; intros i Hi; simpl; [reflexivity|].
  destruct (p a); simpl; [|apply IH; lia].
  destruct (Z.eqb_spec i (-1)); [lia | reflexivity].
Qed.

(** X11: the change notification is emitted by exactly two events: a decode
    that completes, and a pointer-down received with editing enabled whose
    point is in the close button of some image (the one that removes an
    image; the registry is then one entry shorter).  Such an event emits
    once, and the value emitted is the registry as the event leaves it.
    Every other event, in particular every other pointer-down, every
    pointer-move and pointer-up of a drag or a resize, [setImages] and an
    editing toggle, emits nothing. *)
Theorem emits_only_on_append_and_remove e this :
  imagesChange (step e this)
  = (if appends_image e || removes_image e this
     then imagesChange this ++ [images (step e this)]
     else imagesChange this) /\
  (if removes_image e this
   then S (length (images (step e this))) = length (images this)
   else True).
Proof.
  destruct e; simpl;
    try (split; [|exact I]).
  - unfold ngOnInit. now autorewrite with draw.
  - unfold bindInputs, ngOnChanges.
    destruct (has_key _ _); now autorewrite with draw.
  - now rewrite onDrop_state.
  - unfold onDrop_img_onload, emitImagesChange. simpl.
    now autorewrite with draw.
  - unfold onMouseDown, findIndex.
    rewrite findIndex_from_existsb by lia.
    destruct (editing (inputs this)); simpl; [|now split].
    rewrite negb_involutive.
    destruct (existsb _ _) eqn:Hex; simpl.
    + split; [now autorewrite with draw|].
      autorewrite with draw. simpl.
      apply existsb_exists in Hex as (a & Ha & Hp).
      destruct (findIndex_from_found
                  (inCloseButtonBounds this (MouseEvent.offsetX e)
                     (MouseEvent.offsetY e)) (images this) 0%Z)
        as (j & b & Hj & _ & _ & ->).
      { exists a. split; [now apply list_elem_of_In | exact Hp]. }
      unfold splice1. rewrite Z.add_0_l, Nat2Z.id.
      rewrite length_delete by eauto.
      apply lookup_lt_Some in Hj. lia.
    + split; [|exact I]. destruct (negb _); simpl; [|reflexivity].
      now destruct (at_index _ _).
  - now destruct (onMouseMove_keeps e this) as (_ & _ & _ & _ & ->).
  - now destruct (onMouseUp_keeps this) as (_ & _ & -> & _).
  - unfold onKeyDown. now destruct (String.eqb _ _).
  - unfold onKeyUp. now destruct (String.eqb _ _).
  - unfold setImages. now autorewrite with draw.
Qed.

Lemma drawImages_extends c calls :
  ctx c = Some calls -> ctx (drawImages c) = Some (calls ++ frame c).
Proof. intros H. unfold drawImages. now rewrite H. Qed.

(** X12: once [ngOnInit] has obtained the context it is never lost, and no
    event removes a call from it: every event leaves the calls made so far
    as a prefix of the calls made. *)
Theorem context_only_grows e this calls :
  ctx this = Some calls ->
  exists more, ctx (step e this) = Some (calls ++ more).
Proof.
  intros Hctx.
  assert (Hsame : forall c, ctx c = Some calls ->
                            exists more, ctx c = Some (calls ++ more)).
  { intros c Hc. exists []. now rewrite app_nil_r. }
  assert (Hdraw : forall c, ctx c = Some calls ->
                            exists more,
                              ctx (drawImages c) = Some (calls ++ more)).
  { intros c Hc. eexists. now apply drawImages_extends. }
  destruct e; cbn [step].
  - unfold ngOnInit. apply Hdraw. simpl. now rewrite Hctx.
  - unfold bindInputs, ngOnChanges.
    destruct (has_key _ _); [apply Hdraw | apply Hsame]; exact Hctx.
  - rewrite onDrop_state. now apply Hsame.
  - unfold onDrop_img_onload, emitImagesChange. simpl. now apply Hdraw.
  - unfold onMouseDown.
    destruct (editing (inputs this)); simpl; [|now apply Hsame].
    destruct (negb _); simpl; [now apply Hdraw|].
    destruct (negb _); simpl; [|now apply Hsame].
    destruct (at_index _ _); now apply Hsame.
  - unfold onMouseMove.
    destruct (selectedImageIndex this) as [i|]; simpl; [|now apply Hsame].
    destruct (at_index (images this) i); simpl;
      [now apply Hdraw | now apply Hsame].
  - destruct (onMouseUp_keeps this) as (_ & _ & _ & ->). now apply Hsame.
  - unfold onKeyDown. destruct (String.eqb _ _); now apply Hsame.
  - unfold onKeyUp. destruct (String.eqb _ _); now apply Hsame.
  - unfold setImages. now apply Hdraw.
Qed.

Lemma context_only_grows_witness :
  exists more,
    ctx (step (MouseMove (MouseEvent.mk 60 70)) square_dragging)
    = Some (default [] (ctx square_dragging) ++ more).
Proof.
  apply (context_only_grows (MouseMove (MouseEvent.mk 60 70))
           square_dragging (default [] (ctx square_dragging))).
  by_eval.
Defined.

(** X13: in every reachable state a selected index that is not negative
    comes with the dragging flag set, so the [isDragging] test of
    [onMouseMove] never fails for a selected image. *)
Theorem selection_implies_dragging this i :
  reachable this ->
  selectedImageIndex this = Some i -> (0 <= i)%Z ->
  isDragging this = true.
Proof.
  intros Hreach. revert i.
  induction Hreach as [|e this Hreach IH]; [discriminate|].
  intros i. destruct e; simpl.
  - unfold ngOnInit. autorewrite with draw. apply IH.
  - unfold bindInputs, ngOnChanges.
    destruct (has_key _ _); autorewrite with draw; simpl;
      [discriminate | apply IH].
  - rewrite onDrop_state. apply IH.
  - unfold onDrop_img_onload, emitImagesChange. simpl.
    autorewrite with draw. apply IH.
  - unfold onMouseDown.
    destruct (editing (inputs this)); simpl; [|apply IH].
    destruct (negb _); simpl; [autorewrite with draw; discriminate|].
    set (hit := findIndex_hit _ _ _ _ _).
    destruct (Z.eqb_spec (snd hit) (-1)) as [Hneg|Hpos]; simpl.
    + rewrite Hneg. intros [= <-]. lia.
    + destruct (findIndex_hit_spec this (MouseEvent.offsetX e)
                  (MouseEvent.offsetY e) (images this) 0%Z)
        as [Hnone | (n & img & Hidx & _ & _ & Hat)]; [contradiction|].
      fold hit in Hidx, Hat.
      rewrite Hidx, Z.add_0_l, at_index_of_nat, Hat. reflexivity.
  - destruct (onMouseMove_keeps e this) as (_ & -> & -> & _). apply IH.
  - unfold onMouseUp. destruct (selectedImageIndex this) as [k|] eqn:Hsel.
    + destruct (at_index (images this) k); simpl; [discriminate|].
      rewrite Hsel. apply IH.
    + simpl. discriminate.
  - unfold onKeyDown. destruct (String.eqb _ _); apply IH.
  - unfold onKeyUp. destruct (String.eqb _ _); apply IH.
  - unfold setImages. autorewrite with draw. apply IH.
Qed.

Lemma selection_implies_dragging_witness :
  isDragging wide_resizing = true.
Proof.
  apply (selection_implies_dragging wide_resizing 0%Z);
    [apply reachable_run, reachable_new | by_eval | lia].
Defined.

(** ** Rendering *)

Lemma drawn_app a b : drawn (a ++ b) = drawn a ++ drawn b.
Proof. apply flat_map_app. Qed.

Lemma filled_app a b : filled (a ++ b) = filled a ++ filled b.
Proof. apply flat_map_app. Qed.

(** X14: a redraw draws every image of the registry once, in sequence
    order (so a later entry is drawn over an earlier one), at its position
    and scaled to its size, whether editing is enabled or not. *)
Theorem frame_draws_registry_in_order this :
  drawn (frame this)
  = map (fun d => (DraggableImage.img d,
                   (DraggableImage.x d, DraggableImage.y d,
                    DraggableImage.width d, DraggableImage.height d)))
        (images this).
Proof.
  unfold frame. simpl. induction (images this) as [|d l IH]; [reflexivity|].
  cbn [flat_map map]. rewrite drawn_app, IH.
  now destruct (editing (inputs this)).
Qed.

(** X15: the resize handle and the close button are drawn only while
    editing is enabled: then a redraw fills, for every image in order, the
    handle square at its bottom-right corner and the close square at its
    top-right corner; with editing disabled it fills nothing. *)
Theorem frame_affordances this :
  filled (frame this)
  = if editing (inputs this)
    then flat_map
           (fun d =>
              [ (DraggableImage.x d + DraggableImage.width d
                 - resizeHandleSize (inputs this),
                 DraggableImage.y d + DraggableImage.height d
                 - resizeHandleSize (inputs this),
                 resizeHandleSize (inputs this),
                 resizeHandleSize (inputs this));
                (DraggableImage.x d + DraggableImage.width d
                 - closeButtonSize (inputs this),
                 DraggableImage.y d,
                 closeButtonSize (inputs this),
                 closeButtonSize (inputs this)) ])
           (images this)
    else [].
Proof.
  unfold frame. simpl.
  destruct (editing (inputs this));
    induction (images this) as [|d l IH]; try reflexivity;
    cbn [flat_map]; rewrite filled_app, IH; reflexivity.
Qed.

(** X16: drawing does not change what is drawn: [drawImages] writes only
    the context, so a second redraw with the registry and the inputs
    unchanged issues the same calls as the first. *)
Theorem redraw_is_repeatable this :
  frame (drawImages this) = frame this /\
  images (drawImages this) = images this /\
  inputs (drawImages this) = inputs this /\
  ctx (drawImages (drawImages this))
  = (fun calls => calls ++ frame this ++ frame this) <$> ctx this.
Proof.
  assert (Hframe : frame (drawImages this) = frame this).
  { unfold drawImages. now destruct (ctx this). }
  split; [exact Hframe|].
  split; [apply images_drawImages|].
  split; [apply inputs_drawImages|].
  destruct (ctx this) as [calls|] eqn:Hctx.
  - rewrite (drawImages_extends (drawImages this) (calls ++ frame this))
      by now apply drawImages_extends.
    rewrite Hframe. simpl. now rewrite <- app_assoc.
  - unfold drawImages. rewrite Hctx. simpl. now rewrite Hctx.
Qed.



(** ** Placement of a dropped image *)

(** X18: on a surface at least 100 wide, a dropped image is placed with
    its left edge at 0 and a width that is at most the surface width, so it
    never sticks out to the right (its height has no such bound). *)
Theorem drop_width_fits img this :
  100 <= width (inputs this) ->
  exists d,
    images (onDrop_img_onload img this) = images this ++ [d] /\
    DraggableImage.x d = 0 /\
    DraggableImage.x d + DraggableImage.width d <= width (inputs this).
Proof.
  intros HW. exists (draggableImage_of this img).
  unfold onDrop_img_onload, emitImagesChange. simpl.
  autorewrite with draw. simpl.
  do 2 (split; [reflexivity|]).
  destruct (Qle_bool (HTMLImageElement.width img) (width (inputs this)))
    eqn:Hfit; [apply Qle_bool_iff in Hfit|]; lra.
Qed.

Lemma drop_width_fits_witness :
  exists d,
    images (onDrop_img_onload (HTMLImageElement.mk "image.png" 1000 500)
              mounted) = images mounted ++ [d] /\
    DraggableImage.x d = 0 /\
    DraggableImage.x d + DraggableImage.width d <= width (inputs mounted).
Proof.
  apply (drop_width_fits (HTMLImageElement.mk "image.png" 1000 500)
           mounted).
  qdecide.
Defined.

(** ** Resetting the interaction state *)

Lemma resizing_count_zero l :
  resizing_count l = 0%nat <->
  Forall (fun d => truthy (DraggableImage.isResizing d) = false) l.
Proof.
  induction l as [|d l IH]; [split; auto; constructor|].
  rewrite resizing_count_cons, Forall_cons.
  destruct (truthy (DraggableImage.isResizing d)); simpl.
  - split; [lia | intros [? _]; discriminate].
  - rewrite IH. tauto.
Qed.

(** X19: [resetInteractions] is idempotent, moves and resizes nothing, and
    leaves no image marked as being resized, whatever marks the registry
    carried before. *)
Theorem resetInteractions_idempotent this :
  resetInteractions (resetInteractions this) = resetInteractions this /\
  Forall2 same_geometry (images this) (images (resetInteractions this)) /\
  resizing_count (images (resetInteractions this)) = 0%nat.
Proof.
  split; [|split].
  - unfold resetInteractions. simpl.
    rewrite map_map.
    rewrite (map_ext _ (DraggableImage.set_isResizing false)); [reflexivity|].
    now intros [].
  - unfold resetInteractions. simpl.
    induction (images this) as [|d l IH]; simpl; constructor; auto.
    now repeat split.
  - apply resizing_count_zero.
    eapply Forall_impl; [apply resetInteractions_images|].
    intros d Hd. simpl in Hd. now rewrite Hd.
Qed.

(** X20: when no image is marked and every resize handle lies within its
    image (the handle size is not negative and at most each width and
    height), a pointer-down leaves at most one image marked. *)
Theorem onMouseDown_marks_at_most_one down this :
  0 <= resizeHandleSize (inputs this) ->
  Forall (fun d =>
            resizeHandleSize (inputs this) <= DraggableImage.width d /\
            resizeHandleSize (inputs this) <= DraggableImage.height d)
         (images this) ->
  resizing_count (images this) = 0%nat ->
  (resizing_count (images (state_of (onMouseDown down this))) <= 1)%nat.
Proof.
  intros H0 Hsize Hcount. unfold onMouseDown.
  destruct (editing (inputs this)); simpl; [|lia].
  destruct (negb _); simpl.
  - autorewrite with draw. simpl.
    assert (Hz : resizing_count (splice1 (images this)
                   (findIndex
                      (inCloseButtonBounds this (MouseEvent.offsetX down)
                         (MouseEvent.offsetY down)) (images this)))
                 = 0%nat).
    { apply resizing_count_zero. unfold splice1. apply Forall_delete.
      now apply resizing_count_zero. }
    lia.
  - pose proof (findIndex_hit_marks_at_most_one this
                  (MouseEvent.offsetX down) (MouseEvent.offsetY down)
                  (images this) 0%Z H0 Hsize Hcount) as Hle.
    destruct (negb _); [destruct (at_index _ _)|]; simpl; exact Hle.
Qed.

Lemma onMouseDown_marks_at_most_one_witness :
  (resizing_count
     (images (state_of (onMouseDown (MouseEvent.mk 95 95) two_squares)))
   <= 1)%nat.
Proof.
  apply (onMouseDown_marks_at_most_one (MouseEvent.mk 95 95) two_squares).
  - qdecide.
  - assert (E : images two_squares
                = [ DraggableImage.mk
                      (HTMLImageElement.mk "first.png" 100 100)
                      300 200 100 100 (Some false) None None;
                    DraggableImage.mk
                      (HTMLImageElement.mk "second.png" 100 100)
                      0 0 100 100 None None None ]) by by_eval.
    rewrite E. repeat constructor; qdecide.
  - by_eval.
Defined.

Lemma drag_upper_bound_witness :
  exists this' img',
    onMouseMove (MouseEvent.mk 6 501) tall_dragging = Normal this' /\
    at_index (images this') 0 = Some img' /\
    DraggableImage.x img'
    <= width (inputs this') - DraggableImage.width img' /\
    DraggableImage.y img'
    <= height (inputs this') - DraggableImage.height img'.
Proof.
  apply (drag_upper_bound (MouseEvent.mk 6 501) tall_dragging 0%Z
           (DraggableImage.mk (HTMLImageElement.mk "image.png" 10 700)
              0 0 10 (700 / 10 * 100) None None None));
    by_eval.
Defined.

(** X22: nothing is drawn before [ngOnInit]: while the context has not been
    obtained, every event other than [ngOnInit] (a [setImages], a completed
    drop and an editing toggle included) leaves it absent. *)
Theorem no_drawing_before_init e this :
  e <> NgOnInit ->
  ctx this = None ->
  ctx (step e this) = None.
Proof.
  intros He Hctx.
  assert (Hdraw : forall c, ctx c = None -> ctx (drawImages c) = None).
  { intros c Hc. unfold drawImages. now rewrite Hc. }
  destruct e; cbn [step]; [contradiction|..].
  - unfold bindInputs, ngOnChanges.
    destruct (has_key _ _); [apply Hdraw|]; exact Hctx.
  - now rewrite onDrop_state.
  - unfold onDrop_img_onload, emitImagesChange. simpl. now apply Hdraw.
  - unfold onMouseDown.
    destruct (editing (inputs this)); simpl; [|exact Hctx].
    destruct (negb _); simpl; [now apply Hdraw|].
    destruct (negb _); simpl; [|exact Hctx].
    now destruct (at_index _ _).
  - unfold onMouseMove.
    destruct (selectedImageIndex this) as [i|]; simpl; [|exact Hctx].
    destruct (at_index (images this) i); simpl;
      [now apply Hdraw | exact Hctx].
  - now destruct (onMouseUp_keeps this) as (_ & _ & _ & ->).
  - unfold onKeyDown. now destruct (String.eqb _ _).
  - unfold onKeyUp. now destruct (String.eqb _ _).
  - unfold setImages. now apply Hdraw.
Qed.

Lemma no_drawing_before_init_witness :
  ctx (step (ImgOnload (HTMLImageElement.mk "image.png" 100 100)) new)
  = None.
Proof.
  apply (no_drawing_before_init
           (ImgOnload (HTMLImageElement.mk "image.png" 100 100)) new);
    [discriminate | reflexivity].
Defined.

(** X23: with Shift held, a pointer-move of a resize does not read the
    pointer's vertical position: two moves with the same [offsetX] leave
    the same instance. *)
Theorem locked_resize_ignores_offsetY ox oy oy' this i img :
  selectedImageIndex this = Some i ->
  at_index (images this) i = Some img ->
  DraggableImage.isResizing img = Some true ->
  isShiftPressed this = true ->
  onMouseMove (MouseEvent.mk ox oy) this
  = onMouseMove (MouseEvent.mk ox oy') this.
Proof.
  intros Hsel Himg Hres Hshift.
  rewrite !(onMouseMove_selected _ _ _ _ Hsel Himg), Hres. simpl.
  unfold resized. now rewrite Hshift.
Qed.

Lemma locked_resize_ignores_offsetY_witness :
  onMouseMove (MouseEvent.mk 200 95) wide_resizing
  = onMouseMove (MouseEvent.mk 200 400) wide_resizing.
Proof.
  apply (locked_resize_ignores_offsetY 200 95 400 wide_resizing 0%Z
           (DraggableImage.mk (HTMLImageElement.mk "image.png" 400 100)
              0 0 400 100 (Some true) (Some 400) (Some 100)));
    by_eval.
Defined.
